(** * d2l-pytorch-sagemaker: the notebooks' own code, embedded and checked

    The repository is a set of Jupyter notebooks over PyTorch.  The code
    the notebooks themselves define is small:

    - [custom-layer.ipynb]: the layer classes [CenteredLayer] and
      [MyLinear];
    - the linear-regression notebook: [load_array] and the training loop;
    - [parameters.ipynb]: [init_normal] applied with [net.apply], and the
      network with a tied ([shared]) layer.

    PyTorch itself is not part of the repository.  It appears here twice:
    as an interface ([TensorLib]) over which the notebooks' functions are
    written, and as one instance of that interface over exact rational
    arithmetic ([Torch]), used wherever a statement needs actual numbers. *)

Set Warnings "-notation-overridden,-ambiguous-paths,-rewrite-rw,-notation-for-abbreviation,-register-all".
From mathcomp Require Import ssreflect ssrfun ssrbool eqtype ssrnat div seq.
From mathcomp Require Import bigop order ssralg ssrnum ssrint rat.

Set Implicit Arguments.
Unset Strict Implicit.
Unset Printing Implicit Defensive.

Import GRing.Theory Num.Theory.

(** ** Results of library calls

    A call into the library either returns or raises.  [Ok]/[Err] with a
    bind, so that a function of the notebooks reads as its Python body. *)

Inductive result (E A : Type) : Type :=
  | Ok (a : A)
  | Err (e : E).
Arguments Ok {E A} a.
Arguments Err {E A} e.

Definition bind {E A B} (r : result E A) (k : A -> result E B) : result E B :=
  match r with
  | Ok a => k a
  | Err e => Err e
  end.

Definition is_ok {E A} (r : result E A) : bool :=
  if r is Ok _ then true else false.

Definition map_result {E E' A B} (hE : E -> E') (h : A -> B)
    (r : result E A) : result E' B :=
  match r with
  | Ok a => Ok (h a)
  | Err e => Err (hE e)
  end.

Declare Scope py_scope.
Delimit Scope py_scope with py.
Notation "x <- c ;; k" := (bind c (fun x => k))
  (at level 61, c at next level, right associativity) : py_scope.

(** ** Scalars: exact rationals, with NaN

    "Exact arithmetic" replaces float32 by [rat].  The one value of the
    floats that is kept is NaN: [mean] of a tensor without elements is
    0/0, which PyTorch returns as [nan].  NaN is absorbing. *)

Definition scalar : Type := option rat.
Definition NaN : scalar := None.
Definition Fin (q : rat) : scalar := Some q.

Definition lift2 (f : rat -> rat -> rat) (a b : scalar) : scalar :=
  match a, b with
  | Some p, Some q => Some (f p q)
  | _, _ => None
  end.

Local Open Scope ring_scope.

Definition sadd : scalar -> scalar -> scalar := lift2 (fun p q => p + q).
Definition ssub : scalar -> scalar -> scalar := lift2 (fun p q => p - q).
Definition smul : scalar -> scalar -> scalar := lift2 (fun p q => p * q).
Definition srelu (a : scalar) : scalar := omap (fun p => Num.max 0 p) a.

(** Sum of the elements (exact, so the order of summation is immaterial). *)
Definition ssum (xs : seq scalar) : scalar := foldr sadd (Fin 0) xs.

(** [sum / count]; 0/0 is NaN. *)
Definition smean (xs : seq scalar) : scalar :=
  if xs is [::] then NaN
  else omap (fun s => s / (size xs)%:R) (ssum xs).

Definition finite (xs : seq scalar) : bool := all isSome xs.

(** ** Tensors: a shape and the elements in row-major order *)

Module Tensor.

Record t : Type := Make { shape : seq nat; data : seq scalar }.

Definition numel (s : seq nat) : nat := foldr muln 1%N s.

(** A tensor has as many elements as its shape says. *)
Definition wf (x : t) : bool := size (data x) == numel (shape x).

Definition of_scalar (a : scalar) : t := Make [::] [:: a].
Definition of_list (xs : seq scalar) : t := Make [:: size xs] xs.
Definition of_rows (n k : nat) (xs : seq scalar) : t := Make [:: n; k] xs.

End Tensor.

Definition tensor : Type := Tensor.t.

(** ** The library over exact arithmetic

    What [torch] computes for the calls the notebooks make, with float32
    replaced by [scalar].  Errors are the library's own exceptions. *)

Inductive TorchError : Type :=
  | RuntimeError_shape      (* operand shapes cannot be combined *)
  | RuntimeError_dim        (* matmul of a 0-dimensional tensor *)
  | IndexError              (* size(0) of a 0-dimensional tensor *)
  | AssertionError          (* TensorDataset: size mismatch between tensors *)
  | ValueError              (* DataLoader: batch_size not positive *)
  | NotCovered.             (* batched matmul, outside this instance *)

Module Torch.

Import Tensor.

Definition res (A : Type) : Type := result TorchError A.

(** *** Broadcasting of elementwise operations *)

(** Shapes are aligned on the right; the shorter is padded with 1. *)
Definition pad_shape (n : nat) (s : seq nat) : seq nat :=
  nseq (n - size s) 1%N ++ s.

(** Two aligned dimensions are compatible when equal or one of them is 1. *)
Fixpoint broadcast_shapes (s1 s2 : seq nat) : option (seq nat) :=
  match s1, s2 with
  | [::], [::] => Some [::]
  | a :: s1', b :: s2' =>
      if (a == b) || (b == 1%N) then omap (cons a) (broadcast_shapes s1' s2')
      else if a == 1%N then omap (cons b) (broadcast_shapes s1' s2')
      else None
  | _, _ => None
  end.

(** [chunks k n d]: [d] cut into [n] consecutive pieces of [k] elements. *)
Definition chunks (k n : nat) (d : seq scalar) : seq (seq scalar) :=
  reshape (nseq n k) d.

(** The elements of a tensor of shape [from] repeated to fill shape [to]:
    a dimension of size 1 is repeated, any other is kept. *)
Fixpoint expand (from to : seq nat) (d : seq scalar) : seq scalar :=
  match from, to with
  | a :: from', b :: to' =>
      if a == b then flatten [seq expand from' to' c | c <- chunks (numel from') a d]
      else flatten (nseq b (expand from' to' d))
  | _, _ => d
  end.

Definition broadcast2 (f : scalar -> scalar -> scalar) (x y : tensor) : res tensor :=
  let n := maxn (size (shape x)) (size (shape y)) in
  let sx := pad_shape n (shape x) in
  let sy := pad_shape n (shape y) in
  match broadcast_shapes sx sy with
  | Some s =>
      Ok (Make s [seq f p.1 p.2 | p <- zip (expand sx s (data x)) (expand sy s (data y))])
  | None => Err RuntimeError_shape
  end.

(** [x + y], [x - y] *)
Definition add : tensor -> tensor -> res tensor := broadcast2 sadd.
Definition sub : tensor -> tensor -> res tensor := broadcast2 ssub.

(** [x.mean()]: a 0-dimensional tensor; NaN when [x] has no element. *)
Definition mean (x : tensor) : res tensor := Ok (of_scalar (smean (data x))).

(** [torch.relu] / [nn.ReLU] *)
Definition relu (x : tensor) : tensor := Make (shape x) [seq srelu v | v <- data x].

(** *** Matrix product *)

Definition dot (u v : seq scalar) : scalar :=
  ssum [seq smul p.1 p.2 | p <- zip u v].

(** The rows of a row-major [n] x [k] block. *)
Definition rows (n k : nat) (d : seq scalar) : seq (seq scalar) := chunks k n d.

(** The columns of a row-major [k] x [m] block. *)
Definition cols (k m : nat) (d : seq scalar) : seq (seq scalar) :=
  [seq [seq nth NaN d (i * m + j) | i <- iota 0 k] | j <- iota 0 m].

(** [w.t()] on a 2-dimensional tensor. *)
Definition transpose (w : tensor) : res tensor :=
  match shape w with
  | [:: k; m] => Ok (Make [:: m; k] (flatten (cols k m (data w))))
  | _ => Err RuntimeError_dim
  end.

(** [torch.matmul(x, w)] for a right operand of one or two dimensions:
    the last dimension of [x] is contracted, its leading dimensions are
    kept.  A 1-dimensional [x] is a single row whose row dimension is
    dropped from the result. *)
Definition matmul (x w : tensor) : res tensor :=
  match shape w with
  | [::] => Err RuntimeError_dim
  | [:: k] =>
      match rev (shape x) with
      | [::] => Err RuntimeError_dim
      | k' :: lead =>
          if k' == k then
            Ok (Make (rev lead) [seq dot r (data w) | r <- rows (numel lead) k (data x)])
          else Err RuntimeError_shape
      end
  | [:: k; m] =>
      match rev (shape x) with
      | [::] => Err RuntimeError_dim
      | k' :: lead =>
          if k' == k then
            Ok (Make (rev (m :: lead))
                  [seq dot r c | r <- rows (numel lead) k (data x), c <- cols k m (data w)])
          else Err RuntimeError_shape
      end
  | _ => Err NotCovered
  end.

(** [F.linear(x, w, b)] = [x @ w.t() + b], the forward of [nn.Linear]. *)
Definition linear (x w b : tensor) : res tensor :=
  (wt <- transpose w ;; y <- matmul x wt ;; add y b)%py.

(** [from] can be repeated to fill [to]. *)
Fixpoint expandable (from to : seq nat) : bool :=
  match from, to with
  | [::], [::] => true
  | a :: from', b :: to' => ((a == b) || (a == 1%N)) && expandable from' to'
  | _, _ => false
  end.

End Torch.

(** *** The shapes of results

    The same operations on shapes alone: what shape the library gives the
    result, or which error it raises. *)
Module TorchShape.

Definition broadcast (s1 s2 : seq nat) : Torch.res (seq nat) :=
  let n := maxn (size s1) (size s2) in
  match Torch.broadcast_shapes (Torch.pad_shape n s1) (Torch.pad_shape n s2) with
  | Some s => Ok s
  | None => Err RuntimeError_shape
  end.

Definition mean (s : seq nat) : Torch.res (seq nat) := Ok [::].

Definition matmul (sx sw : seq nat) : Torch.res (seq nat) :=
  match sw with
  | [::] => Err RuntimeError_dim
  | [:: k] =>
      match rev sx with
      | [::] => Err RuntimeError_dim
      | k' :: lead => if k' == k then Ok (rev lead) else Err RuntimeError_shape
      end
  | [:: k; m] =>
      match rev sx with
      | [::] => Err RuntimeError_dim
      | k' :: lead => if k' == k then Ok (rev (m :: lead)) else Err RuntimeError_shape
      end
  | _ => Err NotCovered
  end.

(** [x.size(0)], from the shape of [x]. *)
Definition size0 (s : seq nat) : Torch.res nat :=
  if s is n :: _ then Ok n else Err IndexError.

End TorchShape.

(** *** Datasets and loaders ([torch.utils.data])

    What a dataset and a loader hold, and what their constructors check.
    [T] is the type of the tensors and [size0] their [size(0)]. *)

(** Keyword arguments of [DataLoader(...)] a caller may leave out. *)
Record dl_kwargs : Type := DlKwargs {
  kw_shuffle : option bool;
  kw_num_workers : option nat
}.

Module TorchData.
Section Over.
Variables (T : Type) (size0 : T -> Torch.res nat).

Record TensorDataset : Type := MkTensorDataset { tensors : seq T }.

(** [all(tensors[0].size(0) == tensor.size(0) for tensor in tensors)],
    evaluated left to right and stopping at the first [False]. *)
Fixpoint same_size0 (t0 : T) (ts : seq T) : Torch.res bool :=
  match ts with
  | [::] => Ok true
  | x :: ts' =>
      (a <- size0 t0 ;; b <- size0 x ;;
       if a == b then same_size0 t0 ts' else Ok false)%py
  end.

(** [TensorDataset(tensors...)]: asserts that the tensors agree on their
    first dimension. *)
Definition TensorDataset_init (ts : seq T) : Torch.res TensorDataset :=
  (ok <- (if ts is t0 :: _ then same_size0 t0 ts else Ok true) ;;
   if ok then Ok (MkTensorDataset ts) else Err AssertionError)%py.

Record DataLoader : Type := MkDataLoader {
  dataset : TensorDataset;
  batch_size : int;
  shuffle : bool;
  num_workers : nat      (* worker processes; 0: load in the calling process *)
}.

(** [DataLoader(dataset, batch_size, shuffle=False, num_workers=0)]: the
    library's defaults fill in what the caller left out; a batch size
    that is not positive is a [ValueError]. *)
Definition DataLoader_init (ds : TensorDataset) (batch_size : int)
    (kw : dl_kwargs) : Torch.res DataLoader :=
  if (batch_size <= 0)%R then Err ValueError
  else Ok (MkDataLoader ds batch_size
             (odflt false (kw_shuffle kw)) (odflt 0%N (kw_num_workers kw))).

End Over.

(** A dataset, a loader, with their tensors seen through [h]. *)
Definition map_dataset {T T'} (h : T -> T') (ds : TensorDataset T) : TensorDataset T' :=
  MkTensorDataset [seq h x | x <- tensors ds].

Definition map_loader {T T'} (h : T -> T') (dl : DataLoader T) : DataLoader T' :=
  MkDataLoader (map_dataset h (dataset dl)) (batch_size dl) (shuffle dl) (num_workers dl).

End TorchData.

(** ** The library as seen from the notebooks

    The tensor operations the layer classes of [custom-layer.ipynb] call.
    [E] is the type of the library's exceptions and [T] of its tensors;
    the notebooks' functions are written once, over any such library. *)

Class TensorLib (E T : Type) : Type := {
  lib_mean : T -> result E T;            (* x.mean() *)
  lib_sub : T -> T -> result E T;        (* x - y *)
  lib_add : T -> T -> result E T;        (* x + y *)
  lib_matmul : T -> T -> result E T      (* torch.matmul(x, y) *)
}.

#[export] Instance exact_lib : TensorLib TorchError tensor := {
  lib_mean := Torch.mean;
  lib_sub := Torch.sub;
  lib_add := Torch.add;
  lib_matmul := Torch.matmul
}.

(** A map between two libraries that commutes with every operation. *)
Record lib_morphism {E T E' T'} (L : TensorLib E T) (L' : TensorLib E' T')
    (hE : E -> E') (hT : T -> T') : Prop := LibMorphism {
  mor_mean : forall x,
    map_result hE hT (lib_mean x) = lib_mean (hT x);
  mor_sub : forall x y,
    map_result hE hT (lib_sub x y) = lib_sub (hT x) (hT y);
  mor_add : forall x y,
    map_result hE hT (lib_add x y) = lib_add (hT x) (hT y);
  mor_matmul : forall x y,
    map_result hE hT (lib_matmul x y) = lib_matmul (hT x) (hT y)
}.

#[export] Instance shape_lib : TensorLib TorchError (seq nat) := {
  lib_mean := TorchShape.mean;
  lib_sub := TorchShape.broadcast;
  lib_add := TorchShape.broadcast;
  lib_matmul := TorchShape.matmul
}.

(** The data-loading calls of the linear-regression notebook: [DS] are
    the library's datasets, [DL] its loaders. *)
Class DataLib (E T DS DL : Type) : Type := {
  lib_TensorDataset : seq T -> result E DS;
  lib_DataLoader : DS -> int -> dl_kwargs -> result E DL
}.

#[export] Instance exact_data
  : DataLib TorchError tensor (TorchData.TensorDataset tensor) (TorchData.DataLoader tensor) := {
  lib_TensorDataset := TorchData.TensorDataset_init (fun x => TorchShape.size0 (Tensor.shape x));
  lib_DataLoader := @TorchData.DataLoader_init tensor
}.

#[export] Instance shape_data
  : DataLib TorchError (seq nat) (TorchData.TensorDataset (seq nat)) (TorchData.DataLoader (seq nat)) := {
  lib_TensorDataset := TorchData.TensorDataset_init TorchShape.size0;
  lib_DataLoader := @TorchData.DataLoader_init (seq nat)
}.

(** A map between two data libraries that commutes with both constructors. *)
Record data_morphism {E T DS DL E' T' DS' DL'}
    (D : DataLib E T DS DL) (D' : DataLib E' T' DS' DL')
    (hE : E -> E') (hT : T -> T') (hDS : DS -> DS') (hDL : DL -> DL') : Prop :=
  DataMorphism {
  mor_dataset : forall ts,
    map_result hE hDS (lib_TensorDataset ts) = lib_TensorDataset [seq hT x | x <- ts];
  mor_loader : forall ds batch_size kw,
    map_result hE hDL (lib_DataLoader ds batch_size kw)
    = lib_DataLoader (hDS ds) batch_size kw
}.

(** [nn.Parameter]: a tensor ([.data]) registered with its module. *)
Record NNParameter (T : Type) : Type := MkParameter {
  p_data : T;
  requires_grad : bool
}.

(** The random generator behind [torch.randn]: a stream of samples and
    the position reached.  Which numbers the stream holds is left open. *)
Record generator : Type := Generator {
  stream : nat -> rat;
  cursor : nat
}.

Definition draw (g : generator) (n : nat) : seq scalar :=
  [seq Fin (stream g (cursor g + i)) | i <- iota 0 n].

Definition advance (g : generator) (n : nat) : generator :=
  Generator (stream g) (cursor g + n).

Arguments draw : simpl never.
Arguments advance : simpl never.

(** A generator to run the cells on: the samples are -1, 0, 1, -1, 0, 1
    and so on. *)
Definition samples : generator := Generator (fun i => (modn i 3)%:R - 1) 0.

(** [torch.randn] of a shape *)
Definition randn (shape : seq nat) (g : generator) : tensor * generator :=
  (Tensor.Make shape (draw g (Tensor.numel shape)), advance g (Tensor.numel shape)).

(** ** custom-layer.ipynb *)

(** <<
    class CenteredLayer(nn.Module):
        def __init__(self):
            super().__init__()
        def forward(self, x):
            return x - x.mean()
    >> *)
Module CenteredLayer.
Section Over.
Context {E T : Type} {L : TensorLib E T}.

(** The object has no attribute of its own. *)
Record t : Type := Make { }.

Definition __init__ : t := Make.

Definition parameters (self : t) : seq (NNParameter T) := [::].

Definition forward (self : t) (x : T) : result E T :=
  (m <- lib_mean x ;; lib_sub x m)%py.

End Over.
End CenteredLayer.

(** <<
    class MyLinear(nn.Module):
        def __init__(self, in_units, units):
            super().__init__()
            self.weight = nn.Parameter(torch.randn(in_units, units))
            self.bias = nn.Parameter(torch.randn(units,))
        def forward(self, x):
            return torch.matmul(x, self.weight.data) + self.bias.data
    >> *)
Module MyLinear.

Record t (T : Type) : Type := Make {
  weight : NNParameter T;
  bias : NNParameter T
}.

Definition parameters {T} (self : t T) : seq (NNParameter T) :=
  [:: weight self; bias self].

(** The same layer with its tensors seen through [h]. *)
Definition map_tensors {T T'} (h : T -> T') (self : t T) : t T' :=
  Make (MkParameter (h (p_data (weight self))) (requires_grad (weight self)))
       (MkParameter (h (p_data (bias self))) (requires_grad (bias self))).

Definition forward {E T} {L : TensorLib E T} (self : t T) (x : T) : result E T :=
  (y <- lib_matmul x (p_data (weight self)) ;; lib_add y (p_data (bias self)))%py.

(** The constructor draws from the generator, weight first. *)
Definition __init__ (in_units units : nat) (g : generator) : t tensor * generator :=
  let: (w, g1) := randn [:: in_units; units] g in
  let: (b, g2) := randn [:: units] g1 in
  (Make (MkParameter w true) (MkParameter b true), g2).

End MyLinear.

(** ** The linear-regression notebook *)

(** <<
    def load_array(data_arrays, batch_size, is_train=True):  #@save
        dataset = data.TensorDataset( *data_arrays)
        return data.DataLoader(dataset, batch_size, shuffle=is_train)
    >>
    (docstring: Construct a PyTorch data loader).  [is_train] is [None]
    when the caller leaves it out. *)
Definition load_array {E T DS DL} {D : DataLib E T DS DL}
    (data_arrays : seq T) (batch_size : int) (is_train : option bool)
    : result E DL :=
  let is_train := odflt true is_train in
  (dataset <- lib_TensorDataset data_arrays ;;
   lib_DataLoader dataset batch_size (DlKwargs (Some is_train) None))%py.

(** ** The library calls a function makes

    A library that computes nothing and records what it is asked.  Its
    tensors are expressions: the argument of the function, a tensor the
    object holds, or an operation of the library applied to expressions.
    Running a function of the notebooks over it shows which calls the
    function makes and how the result of one call reaches the next. *)
Inductive expr : Type :=
  | Arg                          (* the argument of the function *)
  | Held (i : nat)               (* the [i]-th tensor the object holds *)
  | OpMean (a : expr)            (* a.mean() *)
  | OpSub (a b : expr)           (* a - b *)
  | OpAdd (a b : expr)           (* a + b *)
  | OpMatmul (a b : expr).       (* torch.matmul(a, b) *)

Definition recording_lib : TensorLib TorchError expr := {|
  lib_mean := fun a => Ok (OpMean a);
  lib_sub := fun a b => Ok (OpSub a b);
  lib_add := fun a b => Ok (OpAdd a b);
  lib_matmul := fun a b => Ok (OpMatmul a b)
|}.

(** The number of library calls in an expression. *)
Fixpoint n_ops (c : expr) : nat :=
  match c with
  | Arg | Held _ => 0
  | OpMean a => (n_ops a).+1
  | OpSub a b | OpAdd a b | OpMatmul a b => (n_ops a + n_ops b).+1
  end.

(** A composition of library calls, carried out in a library: the
    operands from left to right, then the call; the first error ends it.
    [x] is the argument and [held] are the tensors the object holds. *)
Fixpoint run_expr {E T} {L : TensorLib E T} (held : seq T) (x : T) (c : expr)
    : result E T :=
  match c with
  | Arg => Ok x
  | Held i => Ok (nth x held i)
  | OpMean a => (a' <- run_expr held x a ;; lib_mean a')%py
  | OpSub a b =>
      (a' <- run_expr held x a ;; b' <- run_expr held x b ;; lib_sub a' b')%py
  | OpAdd a b =>
      (a' <- run_expr held x a ;; b' <- run_expr held x b ;; lib_add a' b')%py
  | OpMatmul a b =>
      (a' <- run_expr held x a ;; b' <- run_expr held x b ;; lib_matmul a' b')%py
  end.

(** The same for the data-loading calls: a dataset records the arrays it
    was given, a loader the dataset and the arguments it was given. *)
Record loader_call (T : Type) : Type := LoaderCall {
  lc_arrays : seq T;
  lc_batch_size : int;
  lc_kwargs : dl_kwargs
}.

Definition recording_data (T : Type)
  : DataLib TorchError T (seq T) (loader_call T) := {|
  lib_TensorDataset := fun ts => Ok ts;
  lib_DataLoader := fun ds batch_size kw => Ok (LoaderCall ds batch_size kw)
|}.

(** ** The interpreter state shared by the cells of a notebook

    Tensors are objects: a variable or a module attribute holds a
    reference into the heap, and an in-place operation changes the heap at
    that reference for every holder.  Module objects are never rebound in
    the cells modelled here, so a module is a value carrying its object
    identity and the references of its parameters. *)

Definition ref : Type := nat.

(** [nn.Module] objects: [nn.Linear], [nn.ReLU], [nn.Sequential]. *)
Inductive module : Type :=
  | Linear (id : nat) (weight bias : ref)
  | ReLU (id : nat)
  | Sequential (id : nat) (children : seq module).

Definition module_id (m : module) : nat :=
  match m with
  | Linear i _ _ => i
  | ReLU i => i
  | Sequential i _ => i
  end.

(** The global names the modelled cells bind or read. *)
Inductive name : Type := Nnet | Nshared | Nx | Ny.

Record globals : Type := Globals {
  g_net : option module;
  g_shared : option module;
  g_x : option ref;
  g_y : option ref
}.

Record pystate : Type := PyState {
  heap : seq tensor;        (* tensor objects, by reference *)
  next_id : nat;            (* identity of the next module object *)
  rng : generator;          (* torch's global generator *)
  vars : globals;
  stdout : seq tensor       (* what the cells have printed *)
}.

Definition initial (g : generator) : pystate :=
  PyState [::] 0 g (Globals None None None None) [::].

Inductive PyError : Type :=
  | NameError (n : name)          (* name is not defined *)
  | TypeError                     (* object is not subscriptable / callable *)
  | AttributeError                (* module has no such attribute *)
  | IndexError_py                 (* index out of range *)
  | LibraryError (e : TorchError).

(** Computations of a cell: state in, value and state out, or an error. *)
Definition py (A : Type) : Type := pystate -> result PyError (A * pystate).

Definition ret {A} (a : A) : py A := fun st => Ok (a, st).

Definition pbind {A B} (c : py A) (k : A -> py B) : py B :=
  fun st => match c st with
            | Ok (a, st') => k a st'
            | Err e => Err e
            end.

Definition raise {A} (e : PyError) : py A := fun _ => Err e.

Definition lift_lib {A} (r : Torch.res A) : py A :=
  fun st => match r with
            | Ok a => Ok (a, st)
            | Err e => Err (LibraryError e)
            end.

Notation "x <-- c ;;; k" := (pbind c (fun x => k))
  (at level 61, c at next level, right associativity) : py_scope.
Notation "c ;;; k" := (pbind c (fun _ => k))
  (at level 61, right associativity) : py_scope.

Local Open Scope py_scope.

(** *** Heap, generator, names *)

Definition no_tensor : tensor := Tensor.Make [::] [::].

Definition alloc (t : tensor) : py ref :=
  fun st => Ok (size (heap st),
                PyState (rcons (heap st) t) (next_id st) (rng st) (vars st) (stdout st)).

Definition read (r : ref) : py tensor :=
  fun st => Ok (nth no_tensor (heap st) r, st).

Definition write (r : ref) (t : tensor) : py unit :=
  fun st => Ok (tt, PyState (set_nth no_tensor (heap st) r t)
                      (next_id st) (rng st) (vars st) (stdout st)).

Definition fresh_id : py nat :=
  fun st => Ok (next_id st,
                PyState (heap st) (next_id st).+1 (rng st) (vars st) (stdout st)).

Definition sample (n : nat) : py (seq scalar) :=
  fun st => Ok (draw (rng st) n,
                PyState (heap st) (next_id st) (advance (rng st) n) (vars st) (stdout st)).

Definition print (t : tensor) : py unit :=
  fun st => Ok (tt, PyState (heap st) (next_id st) (rng st) (vars st)
                      (rcons (stdout st) t)).

Definition set_vars (f : globals -> globals) : py unit :=
  fun st => Ok (tt, PyState (heap st) (next_id st) (rng st) (f (vars st)) (stdout st)).

Definition lookup {A} (n : name) (field : globals -> option A) : py A :=
  fun st => if field (vars st) is Some a then Ok (a, st) else Err (NameError n).

Definition get_net : py module := lookup Nnet g_net.
Definition get_x : py ref := lookup Nx g_x.
Definition get_y : py ref := lookup Ny g_y.

Definition set_net (m : module) : py unit :=
  set_vars (fun g => Globals (Some m) (g_shared g) (g_x g) (g_y g)).
Definition set_shared (m : module) : py unit :=
  set_vars (fun g => Globals (g_net g) (Some m) (g_x g) (g_y g)).
Definition set_x (r : ref) : py unit :=
  set_vars (fun g => Globals (g_net g) (g_shared g) (Some r) (g_y g)).
Definition set_y (r : ref) : py unit :=
  set_vars (fun g => Globals (g_net g) (g_shared g) (g_x g) (Some r)).

(** *** The [torch] and [torch.nn] calls of the cells *)

(** [torch.randn(shape)] as a new tensor object. *)
Definition torch_randn (shape : seq nat) : py ref :=
  d <-- sample (Tensor.numel shape) ;;; alloc (Tensor.Make shape d).

(** [nn.Linear(in_features, out_features)]: a weight of shape
    [(out_features, in_features)] and a bias of shape [(out_features,)],
    filled from the generator, weight first.  (The library scales the
    samples by a bound depending on [in_features]; the samples are kept
    as drawn here.) *)
Definition nn_Linear (in_features out_features : nat) : py module :=
  i <-- fresh_id ;;;
  w <-- sample (out_features * in_features)%N ;;;
  wr <-- alloc (Tensor.Make [:: out_features; in_features] w) ;;;
  b <-- sample out_features ;;;
  br <-- alloc (Tensor.Make [:: out_features] b) ;;;
  ret (Linear i wr br).

Definition nn_ReLU : py module := i <-- fresh_id ;;; ret (ReLU i).

Definition nn_Sequential (children : seq module) : py module :=
  i <-- fresh_id ;;; ret (Sequential i children).

(** [net[i]] *)
Definition getitem (m : module) (i : nat) : py module :=
  match m with
  | Sequential _ ms =>
      if (i < size ms)%N then ret (nth (ReLU 0) ms i) else raise IndexError_py
  | _ => raise TypeError
  end.

(** [m.weight], [m.bias] (and their [.data], the same storage) *)
Definition weight (m : module) : py ref :=
  if m is Linear _ w _ then ret w else raise AttributeError.
Definition bias (m : module) : py ref :=
  if m is Linear _ _ b then ret b else raise AttributeError.

(** [type(m) == nn.Linear] *)
Definition is_Linear (m : module) : bool :=
  if m is Linear _ _ _ then true else false.

(** [net(x)]: the children of a [Sequential] in order. *)
Fixpoint forward (h : seq tensor) (m : module) (x : tensor) : Torch.res tensor :=
  match m with
  | Linear _ w b => Torch.linear x (nth no_tensor h w) (nth no_tensor h b)
  | ReLU _ => Ok (Torch.relu x)
  | Sequential _ ms =>
      foldl (fun acc m' => bind acc (forward h m')) (Ok x) ms
  end.

Definition call (m : module) (xr : ref) : py ref :=
  x <-- read xr ;;;
  y <-- (fun st => lift_lib (forward (heap st) m x) st) ;;;
  alloc y.

(** [module.apply(fn)]: [fn] on every child (each object once, in order,
    children before parents), then on the module itself. *)
Fixpoint apply (fn : module -> py unit) (m : module) : py unit :=
  match m with
  | Sequential _ ms =>
      (foldl (fun (acc : py (seq nat)) m' =>
                seen <-- acc ;;;
                if module_id m' \in seen then ret seen
                else (apply fn m' ;;; ret (module_id m' :: seen)))
             (ret [::]) ms) ;;;
      fn m
  | _ => fn m
  end.

(** [nn.init.normal_(p, mean, std)]: every element redrawn, in place. *)
Definition nn_init_normal_ (p : ref) (mean std : rat) : py unit :=
  t <-- read p ;;;
  z <-- sample (size (Tensor.data t)) ;;;
  write p (Tensor.Make (Tensor.shape t)
             [seq sadd (Fin mean) (smul (Fin std) v) | v <- z]).

(** [nn.init.zeros_(p)] *)
Definition nn_init_zeros_ (p : ref) : py unit :=
  t <-- read p ;;;
  write p (Tensor.Make (Tensor.shape t) (nseq (size (Tensor.data t)) (Fin 0))).

(** [t[i]]: the [i]-th slice along the first dimension. *)
Definition row (t : tensor) (i : nat) : py tensor :=
  match Tensor.shape t with
  | n :: rest =>
      if (i < n)%N then
        ret (Tensor.Make rest
               (take (Tensor.numel rest) (drop (i * Tensor.numel rest)%N (Tensor.data t))))
      else raise IndexError_py
  | [::] => raise IndexError_py
  end.

(** [t[i, j] = v], in place on the tensor object [r]. *)
Definition setitem2 (r : ref) (i j : nat) (v : scalar) : py unit :=
  t <-- read r ;;;
  match Tensor.shape t with
  | n :: m :: rest =>
      if (i < n)%N && (j < m)%N then
        let len := Tensor.numel rest in
        let start := ((i * m + j) * len)%N in
        write r (Tensor.Make (Tensor.shape t)
                   (take start (Tensor.data t) ++ nseq len v
                    ++ drop (start + len) (Tensor.data t)))
      else raise IndexError_py
  | _ => raise IndexError_py
  end.

(** [a == b] on floats, as a tensor of 1 ([True]) and 0 ([False]); NaN
    equals nothing. *)
Definition feq (a b : scalar) : scalar :=
  match a, b with
  | Some p, Some q => Fin (p == q)%:R
  | _, _ => Fin 0
  end.

Definition torch_eq (a b : tensor) : py tensor := lift_lib (Torch.broadcast2 feq a b).

(** The value of a computation in a state. *)
Definition eval {A} (c : py A) (st : pystate) : result PyError A :=
  map_result id fst (c st).

(** A cell is a sequence of statements. *)
Definition stmt : Type := py unit.

(** Run the statements in order, stopping at the first error. *)
Fixpoint exec (c : seq stmt) (st : pystate) : result PyError pystate :=
  match c with
  | [::] => Ok st
  | s :: c' =>
      match s st with
      | Ok (_, st') => exec c' st'
      | Err e => Err e
      end
  end.

(** The state a cell leaves behind (the state it started in, had it
    failed). *)
Definition after (c : seq stmt) (st : pystate) : pystate :=
  if exec c st is Ok st' then st' else st.

(** The states reached after each statement that ran. *)
Fixpoint states (c : seq stmt) (st : pystate) : seq pystate :=
  match c with
  | [::] => [::]
  | s :: c' =>
      match s st with
      | Ok (_, st') => st' :: states c' st'
      | Err _ => [::]
      end
  end.

(** ** parameters.ipynb *)

Module parameters_ipynb.

(** <<
    net = nn.Sequential(nn.Linear(4, 8), nn.ReLU(), nn.Linear(8, 1))
    x = torch.randn(2, 4)
    net(x)
    >> *)
Definition cell_net : seq stmt :=
  [:: (l0 <-- nn_Linear 4 8 ;;; r1 <-- nn_ReLU ;;; l2 <-- nn_Linear 8 1 ;;;
       net <-- nn_Sequential [:: l0; r1; l2] ;;; set_net net);
      (x <-- torch_randn [:: 2; 4] ;;; set_x x);
      (net <-- get_net ;;; x <-- get_x ;;; y <-- call net x ;;;
       t <-- read y ;;; print t) ].

(** <<
    def init_normal(m):
        if type(m) == nn.Linear:
            nn.init.normal_(net[0].weight, mean=0, std=0.01)
            nn.init.zeros_(net[0].bias)
    >>
    [net] is the global of that name, looked up when the body runs. *)
Definition init_normal (m : module) : py unit :=
  if is_Linear m then
    (net <-- get_net ;;; l <-- getitem net 0 ;;; w <-- weight l ;;;
     nn_init_normal_ w 0 (1 / 100%:Q)) ;;;
    (net <-- get_net ;;; l <-- getitem net 0 ;;; b <-- bias l ;;;
     nn_init_zeros_ b)
  else ret tt.

(** <<
    net.apply(init_normal)
    net[0].weight.data[0], net[0].bias.data[0]
    >> *)
Definition cell_init_normal : seq stmt :=
  [:: (net <-- get_net ;;; apply init_normal net);
      (net <-- get_net ;;; l <-- getitem net 0 ;;; w <-- weight l ;;;
       tw <-- read w ;;; w0 <-- row tw 0 ;;;
       net <-- get_net ;;; l <-- getitem net 0 ;;; b <-- bias l ;;;
       tb <-- read b ;;; b0 <-- row tb 0 ;;;
       print w0 ;;; print b0) ].

(** [print(net[2].weight.data[0] == net[4].weight.data[0])] *)
Definition print_rows_equal : stmt :=
  net <-- get_net ;;; l2 <-- getitem net 2 ;;; w2 <-- weight l2 ;;;
  t2 <-- read w2 ;;; a <-- row t2 0 ;;;
  net <-- get_net ;;; l4 <-- getitem net 4 ;;; w4 <-- weight l4 ;;;
  t4 <-- read w4 ;;; b <-- row t4 0 ;;;
  e <-- torch_eq a b ;;; print e.

(** <<
    shared = nn.Linear(8, 8)
    net = nn.Sequential(nn.Linear(4, 8), nn.ReLU(),
                        shared, nn.ReLU(),
                        shared, nn.ReLU(),
                        nn.Linear(8, 1))
    net(x)
    print(net[2].weight.data[0] == net[4].weight.data[0])
    net[2].weight.data[0, 0] = 100
    print(net[2].weight.data[0] == net[4].weight.data[0])
    >> *)
Definition cell_tied : seq stmt :=
  [:: (shared <-- nn_Linear 8 8 ;;; set_shared shared);
      (l0 <-- nn_Linear 4 8 ;;; r1 <-- nn_ReLU ;;;
       s2 <-- lookup Nshared g_shared ;;; r3 <-- nn_ReLU ;;;
       s4 <-- lookup Nshared g_shared ;;; r5 <-- nn_ReLU ;;;
       l6 <-- nn_Linear 8 1 ;;;
       net <-- nn_Sequential [:: l0; r1; s2; r3; s4; r5; l6] ;;; set_net net);
      (net <-- get_net ;;; x <-- get_x ;;; y <-- call net x ;;; ret tt);
      print_rows_equal;
      (net <-- get_net ;;; l2 <-- getitem net 2 ;;; w2 <-- weight l2 ;;;
       setitem2 w2 0 0 (Fin 100%:Q));
      print_rows_equal ].

(** The same network with two separate 8-by-8 layers instead of one
    shared layer, for comparison. *)
Definition cell_untied : seq stmt :=
  [:: (l0 <-- nn_Linear 4 8 ;;; r1 <-- nn_ReLU ;;;
       s2 <-- nn_Linear 8 8 ;;; r3 <-- nn_ReLU ;;;
       s4 <-- nn_Linear 8 8 ;;; r5 <-- nn_ReLU ;;;
       l6 <-- nn_Linear 8 1 ;;;
       net <-- nn_Sequential [:: l0; r1; s2; r3; s4; r5; l6] ;;; set_net net);
      (net <-- get_net ;;; l2 <-- getitem net 2 ;;; w2 <-- weight l2 ;;;
       setitem2 w2 0 0 (Fin 100%:Q));
      print_rows_equal ].

(** The statement [net.apply(init_normal)] of that cell. *)
Definition apply_init_normal : stmt :=
  net <-- get_net ;;; apply init_normal net.

(** [net[i].weight] as an object. *)
Definition weight_ref (i : nat) : py ref :=
  net <-- get_net ;;; l <-- getitem net i ;;; weight l.

(** [net[i].weight.data] and [net[i].bias.data] in a state. *)
Definition weight_of (i : nat) : py tensor :=
  net <-- get_net ;;; l <-- getitem net i ;;; w <-- weight l ;;; read w.
Definition bias_of (i : nat) : py tensor :=
  net <-- get_net ;;; l <-- getitem net i ;;; b <-- bias l ;;; read b.

End parameters_ipynb.

(** ** The ndarray notebook *)

Module ndarray_ipynb.

(** <<
    x = torch.arange(12, dtype=torch.float32).reshape((3,4))
    y = torch.tensor([[2.0, 1, 4, 3], [1, 2, 3, 4], [4, 3, 2, 1]])
    >>
    (the cell goes on to display two concatenations of [x] and [y],
    which bind nothing). *)
Definition cell_xy : seq stmt :=
  [:: (x <-- alloc (Tensor.of_rows 3 4 [seq Fin i%:R | i <- iota 0 12]) ;;; set_x x);
      (y <-- alloc (Tensor.of_rows 3 4
                      [seq Fin i%:R | i <- [:: 2; 1; 4; 3; 1; 2; 3; 4; 4; 3; 2; 1]%N]) ;;;
       set_y y) ].

(** <<
    before = id(y)
    y = y + x
    id(y) == before
    >>
    [id] of a tensor is its reference; the value of the cell is the
    result of the last line. *)
Definition cell_id_y : py bool :=
  before <-- get_y ;;;
  y <-- get_y ;;; ty <-- read y ;;;
  x <-- get_x ;;; tx <-- read x ;;;
  s <-- lift_lib (Torch.add ty tx) ;;;
  r <-- alloc s ;;; set_y r ;;;
  y' <-- get_y ;;; ret (y' == before).

End ndarray_ipynb.

(** ** The linear-regression notebook: the training loop

    The model, the loss, the optimizer and the loader are the library's;
    [S] is everything they keep between calls.  Each call is recorded, in
    the order in which the cell makes it. *)

Inductive api_call : Type :=
  | CallNet            (* net(X) *)
  | CallLoss           (* loss(., y) *)
  | CallZeroGrad       (* trainer.zero_grad() *)
  | CallBackward       (* l.backward() *)
  | CallStep           (* trainer.step() *)
  | CallPrint (epoch : nat).

Definition api_call_code (c : api_call) : nat :=
  match c with
  | CallNet => 0
  | CallLoss => 1
  | CallZeroGrad => 2
  | CallBackward => 3
  | CallStep => 4
  | CallPrint e => 5 + e
  end.

Definition same_call (c c' : api_call) : bool :=
  api_call_code c == api_call_code c'.

Class TrainLib (S T : Type) : Type := {
  lib_iter : S -> seq (T * T) * S;     (* one pass over data_iter *)
  lib_net : S -> T -> T;               (* net(X) *)
  lib_loss : T -> T -> T;              (* loss(out, y) *)
  lib_zero_grad : S -> S;              (* trainer.zero_grad() *)
  lib_backward : T -> S -> S;          (* l.backward() *)
  lib_step : S -> S                    (* trainer.step() *)
}.

Module linear_regression.
Section Over.
Context {S T : Type} {L : TrainLib S T}.

(** State of the library, calls made so far, lines printed so far. *)
Record run : Type := Run {
  lib_state : S;
  calls : seq api_call;
  printed : seq (nat * T)
}.

Definition log (c : api_call) (r : run) : run :=
  Run (lib_state r) (rcons (calls r) c) (printed r).

Definition update (f : S -> S) (r : run) : run :=
  Run (f (lib_state r)) (calls r) (printed r).

(** <<
        l = loss(net(X) ,y)
        trainer.zero_grad()
        l.backward()
        trainer.step()
    >> *)
Definition minibatch_step (r : run) (Xy : T * T) : run :=
  let out := lib_net (lib_state r) Xy.1 in
  let r := log CallNet r in
  let l := lib_loss out Xy.2 in
  let r := log CallLoss r in
  let r := log CallZeroGrad (update lib_zero_grad r) in
  let r := log CallBackward (update (lib_backward l) r) in
  log CallStep (update lib_step r).

(** <<
    for X, y in data_iter:
        ...
    l = loss(net(features), labels)
    print('epoch {}, loss {}'.format(epoch, l))
    >> *)
Definition epoch_body (features labels : T) (r : run) (epoch : nat) : run :=
  let: (batches, s) := lib_iter (lib_state r) in
  let r := update (fun _ => s) r in
  let r := foldl minibatch_step r batches in
  let l := lib_loss (lib_net (lib_state r) features) labels in
  let r := log CallLoss (log CallNet r) in
  let r := log (CallPrint epoch) r in
  Run (lib_state r) (calls r) (rcons (printed r) (epoch, l)).

(** <<
    num_epochs = 3
    for epoch in range(1, num_epochs + 1):
        ...
    >> *)
Definition num_epochs : nat := 3.

Definition training_cell (features labels : T) (s : S) : run :=
  foldl (epoch_body features labels) (Run s [::] [::]) (iota 1 num_epochs).

End Over.
End linear_regression.

(** A library to run the training cell on: its state counts the
    optimizer steps taken, and a pass over the loader yields two
    minibatches. *)
#[export] Instance step_counter : TrainLib nat unit := {
  lib_iter := fun s => ([:: (tt, tt); (tt, tt)], s);
  lib_net := fun _ _ => tt;
  lib_loss := fun _ _ => tt;
  lib_zero_grad := fun s => s;
  lib_backward := fun _ s => s;
  lib_step := fun s => s.+1
}.

(** *** Conditions on what a computation may change *)

(** [c] leaves every global name bound as it was. *)
Definition keeps_vars {A} (c : py A) : Prop :=
  forall st a st', c st = Ok (a, st') -> vars st' = vars st.

(** [P] holds in every state of a list. *)
Fixpoint always (P : pystate -> Prop) (sts : seq pystate) : Prop :=
  match sts with
  | [::] => True
  | st :: sts' => P st /\ always P sts'
  end.

(** [Q] holds of every statement of a cell. *)
Fixpoint each (Q : stmt -> Prop) (c : seq stmt) : Prop :=
  match c with
  | [::] => True
  | s :: c' => Q s /\ each Q c'
  end.

(** ** custom-layer.ipynb: the layers inside a network *)

Module custom_layer_ipynb.

(** <<
    net = nn.Sequential(nn.Linear(8, 128), CenteredLayer())
    >>
    [net(x)] gives the output of the first layer to the second.  [w] and
    [b] are the weight and the bias of the [nn.Linear]. *)
Definition net (w b : tensor) (x : tensor) : Torch.res tensor :=
  (h <- Torch.linear x w b ;;
   CenteredLayer.forward CenteredLayer.__init__ h)%py.

(** <<
    y = net(torch.rand(4, 8))
    y.mean()
    >> *)
Definition cell_y_mean (w b x : tensor) : Torch.res tensor :=
  (y <- net w b x ;; Torch.mean y)%py.

(** <<
    net = nn.Sequential(MyLinear(64, 8), nn.ReLU(), MyLinear(8, 1))
    net(torch.randn(2, 64))
    >>
    The constructors draw from the generator in the order in which they
    are called; the network is returned as its forward function. *)
Definition net_MyLinear (g : generator) : (tensor -> Torch.res tensor) * generator :=
  let: (l0, g0) := MyLinear.__init__ 64 8 g in
  let: (l2, g2) := MyLinear.__init__ 8 1 g0 in
  (fun x => (h <- MyLinear.forward l0 x ;;
             MyLinear.forward l2 (Torch.relu h))%py,
   g2).

Definition cell_net_MyLinear (g : generator) : Torch.res tensor * generator :=
  let: (net, g1) := net_MyLinear g in
  let: (x, g2) := randn [:: 2; 64]%N g1 in
  (net x, g2).

End custom_layer_ipynb.

(** ** parameters.ipynb: the other initialisers *)

Module parameters_init.

Import parameters_ipynb.

(** [nn.init.constant_(p, val)]: every element set to [val], in place. *)
Definition nn_init_constant_ (p : ref) (val : rat) : py unit :=
  t <-- read p ;;;
  write p (Tensor.Make (Tensor.shape t) (nseq (size (Tensor.data t)) (Fin val))).

(** [nn.init.uniform_(p, a, b)]: every element redrawn, in place; a
    sample [u] of the generator gives the element [a + (b - a) * u] (the
    library takes [u] from the interval from 0 to 1, 1 excluded). *)
Definition nn_init_uniform_ (p : ref) (a b : rat) : py unit :=
  t <-- read p ;;;
  u <-- sample (size (Tensor.data t)) ;;;
  write p (Tensor.Make (Tensor.shape t)
             [seq sadd (Fin a) (smul (Fin (b - a)) v) | v <- u]).

(** The cell that defines [init_normal] a second time:
    <<
    def init_normal(m):
        if type(m) == nn.Linear:
            nn.init.constant_(net[0].weight, 1)
            nn.init.zeros_(net[0].bias)
    net.apply(init_normal)
    >> *)
Module constant.

Definition init_normal (m : module) : py unit :=
  if is_Linear m then
    (net <-- get_net ;;; l <-- getitem net 0 ;;; w <-- weight l ;;;
     nn_init_constant_ w 1) ;;;
    (net <-- get_net ;;; l <-- getitem net 0 ;;; b <-- bias l ;;;
     nn_init_zeros_ b)
  else ret tt.

Definition apply_init_normal : stmt :=
  net <-- get_net ;;; apply init_normal net.

End constant.

(** <<
    def init_42(m):
        if type(m) == nn.Linear:
            torch.nn.init.constant_(m.weight, 42)
    net[2].apply(init_42)
    >> *)
Definition init_42 (m : module) : py unit :=
  if is_Linear m then (w <-- weight m ;;; nn_init_constant_ w 42) else ret tt.

Definition apply_init_42 : stmt :=
  net <-- get_net ;;; l <-- getitem net 2 ;;; apply init_42 l.

(** [v.abs() >= c] as 1 ([True]) or 0 ([False]); NaN compares [False]. *)
Definition abs_ge (c : rat) (v : scalar) : scalar :=
  if v is Some q then Fin ((c <= `|q|)%R : bool)%:R else Fin 0.

(** <<
    def my_init(m):
        if type(m) == nn.Linear:
            nn.init.uniform_(m.weight, -10, 10)
            m.weight.data *= m.weight.data.abs() >= 5
    net.apply(my_init)
    >> *)
Definition my_init (m : module) : py unit :=
  if is_Linear m then
    (w <-- weight m ;;; nn_init_uniform_ w (- 10%:Q) 10%:Q) ;;;
    (w <-- weight m ;;; t <-- read w ;;;
     write w (Tensor.Make (Tensor.shape t)
                [seq smul v (abs_ge 5%:Q v) | v <- Tensor.data t]))
  else ret tt.

Definition apply_my_init : stmt :=
  net <-- get_net ;;; apply my_init net.

(** [t[:] += c], in place on the tensor object [r]. *)
Definition iadd_scalar (r : ref) (c : rat) : py unit :=
  t <-- read r ;;;
  write r (Tensor.Make (Tensor.shape t) [seq sadd v (Fin c) | v <- Tensor.data t]).

(** <<
    net[0].weight.data[:] += 1
    net[0].weight.data[0, 0] = 42
    net[0].weight.data[0]
    >>
    The value of the cell is the row its last line displays. *)
Definition cell_direct : py tensor :=
  (w <-- weight_ref 0 ;;; iadd_scalar w 1) ;;;
  (w <-- weight_ref 0 ;;; setitem2 w 0 0 (Fin 42%:Q)) ;;;
  (t <-- weight_of 0 ;;; row t 0).

End parameters_init.

(** ** The ndarray notebook: operations in place *)

Module ndarray_inplace.

(** [x += y] on the tensor object [x]: the sum is written into [x]
    itself, which keeps its shape; an operand that does not broadcast to
    that shape is an error of the library. *)
Definition iadd (x : ref) (ty : tensor) : py unit :=
  tx <-- read x ;;;
  s <-- lift_lib (Torch.add tx ty) ;;;
  if Tensor.shape s == Tensor.shape tx then write x s
  else raise (LibraryError RuntimeError_shape).

(** <<
    before = id(x)
    x += y
    id(x) == before
    >>
    [x += y] calls [x.__iadd__(y)] and binds [x] to what it returns,
    which is the object [x] itself. *)
Definition cell_iadd : py bool :=
  before <-- get_x ;;;
  x <-- get_x ;;; y <-- get_y ;;; ty <-- read y ;;;
  iadd x ty ;;; set_x x ;;;
  x' <-- get_x ;;; ret (x' == before).

End ndarray_inplace.

(** ** The ndarray notebook: broadcasting *)

Module ndarray_broadcast.

(** <<
    a = torch.arange(3).reshape((3, 1))
    b = torch.arange(2).reshape((1, 2))
    >> *)
Definition a : tensor := Tensor.of_rows 3 1 [seq Fin i%:R | i <- iota 0 3].
Definition b : tensor := Tensor.of_rows 1 2 [seq Fin i%:R | i <- iota 0 2].

(** [a + b] *)
Definition cell_a_plus_b : Torch.res tensor := Torch.add a b.

End ndarray_broadcast.

(** ** The linear-regression notebook: the initial parameters *)

Module linear_regression_init.

(** [t.uniform_(a, b)] and [t.fill_(c)], the tensor methods behind
    [nn.init.uniform_] and [nn.init.constant_]. *)
Definition uniform_ (t : ref) (a b : rat) : py unit :=
  parameters_init.nn_init_uniform_ t a b.
Definition fill_ (t : ref) (c : rat) : py unit :=
  parameters_init.nn_init_constant_ t c.

(** <<
    net = nn.Sequential(nn.Linear(2, 1))
    >> *)
Definition cell_net : seq stmt :=
  [:: (l <-- nn_Linear 2 1 ;;; net <-- nn_Sequential [:: l] ;;; set_net net) ].

(** <<
    net[0].weight.data.uniform_(0.0, 0.01)
    net[0].bias.data.fill_(0)
    >> *)
Definition cell_init : seq stmt :=
  [:: (net <-- get_net ;;; l <-- getitem net 0 ;;; w <-- weight l ;;;
       uniform_ w 0 (1 / 100%:Q));
      (net <-- get_net ;;; l <-- getitem net 0 ;;; b <-- bias l ;;;
       fill_ b 0) ].

End linear_regression_init.

(** ** parameters.ipynb: nested blocks *)

Module parameters_blocks.

(** <<
    def block1():
        return nn.Sequential(nn.Linear(4, 8), nn.ReLU(),
                             nn.Linear(8, 4), nn.ReLU())
    >> *)
Definition block1 : py module :=
  l0 <-- nn_Linear 4 8 ;;; r1 <-- nn_ReLU ;;;
  l2 <-- nn_Linear 8 4 ;;; r3 <-- nn_ReLU ;;;
  nn_Sequential [:: l0; r1; l2; r3].

(** [net.add_module(name, m)] on a [Sequential], with a name that [net]
    does not use yet: [m] becomes its last child.  (The names are not
    kept: children are reached by position.) *)
Definition add_module (net : module) (name : nat) (m : module) : py module :=
  if net is Sequential i ms then ret (Sequential i (rcons ms m))
  else raise (LibraryError NotCovered).

(** <<
    def block2():
        net = nn.Sequential()
        for i in range(4):
            net.add_module(f'block {i}', block1())
        return net
    >>
    The name of a block is its number [i]. *)
Definition block2 : py module :=
  net <-- nn_Sequential [::] ;;;
  foldl (fun (acc : py module) (i : nat) =>
           net <-- acc ;;; b <-- block1 ;;; add_module net i b)
        (ret net) (iota 0 4).

(** <<
    rgnet = nn.Sequential(block2(), nn.Linear(4, 1))
    rgnet(x)
    >>
    The value is the module bound to [rgnet] and the tensor object the
    last line displays. *)
Definition cell_rgnet : py (module * ref) :=
  b <-- block2 ;;; l <-- nn_Linear 4 1 ;;;
  rgnet <-- nn_Sequential [:: b; l] ;;;
  x <-- get_x ;;; y <-- call rgnet x ;;;
  ret (rgnet, y).

(** [rgnet[0][1][0].bias.data] *)
Definition rgnet_010_bias (rgnet : module) : py tensor :=
  m0 <-- getitem rgnet 0 ;;; m1 <-- getitem m0 1 ;;; m2 <-- getitem m1 0 ;;;
  b <-- bias m2 ;;; read b.

(** The parameters the layers of a module hold, as references, in the
    order of the layers, and the identities of the objects of a module. *)
Fixpoint parameter_refs (m : module) : seq ref :=
  match m with
  | Linear _ w b => [:: w; b]
  | ReLU _ => [::]
  | Sequential _ ms => flatten [seq parameter_refs m' | m' <- ms]
  end.

Fixpoint module_ids (m : module) : seq nat :=
  match m with
  | Sequential i ms => i :: flatten [seq module_ids m' | m' <- ms]
  | _ => [:: module_id m]
  end.

(** What the constructors leave behind: the tensors they allocate, given
    the generator [g], and the module they return, given the identity
    [n] of the next object and the next free reference [s]. *)
Definition Linear_tensors (n_in n_out : nat) (g : generator) : seq tensor :=
  [:: Tensor.Make [:: n_out; n_in] (draw g (n_out * n_in));
      Tensor.Make [:: n_out] (draw (advance g (n_out * n_in)) n_out)].

Definition block1_tensors (g : generator) : seq tensor :=
  Linear_tensors 4 8 g ++ Linear_tensors 8 4 (advance g 40).

Definition block1_module (n : nat) (s : ref) : module :=
  Sequential n.+4
    [:: Linear n s s.+1; ReLU n.+1; Linear n.+2 s.+2 s.+3; ReLU n.+3].

Definition block2_tensors (g : generator) : seq tensor :=
  flatten [seq block1_tensors (iter k (fun g' => advance g' 76) g) | k <- iota 0 4].

Definition block2_module (n : nat) (s : ref) : module :=
  Sequential n [seq block1_module (k * 5 + n.+1) (k * 4 + s)%N | k <- iota 0 4].

Definition rgnet_tensors (g : generator) : seq tensor :=
  block2_tensors g ++ Linear_tensors 4 1 (advance g 304).

Definition rgnet_module (n : nat) (s : ref) : module :=
  Sequential (22 + n) [:: block2_module n s; Linear (21 + n) (16 + s)%N (17 + s)%N].

End parameters_blocks.

(** *** The shape of [net(x)]

    [forward] on shapes alone: the shape [net(x)] has, or the error it
    raises, from the shapes of the parameters and of [x]. *)
Module ForwardShape.

Definition transpose (s : seq nat) : Torch.res (seq nat) :=
  match s with
  | [:: k; m] => Ok [:: m; k]
  | _ => Err RuntimeError_dim
  end.

Definition linear (sx sw sb : seq nat) : Torch.res (seq nat) :=
  (wt <- transpose sw ;; y <- TorchShape.matmul sx wt ;; TorchShape.broadcast y sb)%py.

Fixpoint forward (h : seq (seq nat)) (m : module) (sx : seq nat)
    : Torch.res (seq nat) :=
  match m with
  | Linear _ w b => linear sx (nth [::] h w) (nth [::] h b)
  | ReLU _ => Ok sx
  | Sequential _ ms =>
      foldl (fun acc m' => bind acc (forward h m')) (Ok sx) ms
  end.

End ForwardShape.

(** * Properties *)

(** ** Facts about the exact library *)

Section TorchFacts.

Import Tensor Torch.

Lemma numel_nseq1 n : numel (nseq n 1%N) = 1%N.
Proof. by elim: n => //= n ->. Qed.

Lemma size_chunk k n (d c : seq scalar) :
  size d = (n * k)%N -> c \in chunks k n d -> size c = k.
Proof.
move=> sd cin.
have sh : seq.shape (chunks k n d) = nseq n k.
  by rewrite /chunks reshapeKl // sumn_nseq mulnC sd.
have : size c \in seq.shape (chunks k n d) by apply: map_f.
by rewrite sh mem_nseq => /andP [_ /eqP].
Qed.

Lemma flatten_chunks k n (d : seq scalar) :
  size d = (n * k)%N -> flatten (chunks k n d) = d.
Proof. by move=> sd; rewrite /chunks reshapeKr // sumn_nseq mulnC sd. Qed.

Lemma expand_id s d : size d = numel s -> expand s s d = d.
Proof.
elim: s d => [|a s IH] d //= sd; rewrite eqxx.
have -> : [seq expand s s c | c <- chunks (numel s) a d] = chunks (numel s) a d.
  by apply: map_id_in => c /(size_chunk sd); apply: IH.
exact: flatten_chunks.
Qed.

Lemma expand_scalar s m :
  expand (nseq (size s) 1%N) s [:: m] = nseq (numel s) m.
Proof.
elim: s => [|b s IH] //=.
case: eqP => [<-|_].
  by rewrite /chunks /= numel_nseq1 /= cats0 mul1n.
rewrite IH; elim: b => [|b IHb] //=.
by rewrite IHb mulSn nseqD.
Qed.

Lemma broadcast_shapes_scalar s :
  broadcast_shapes s (nseq (size s) 1%N) = Some s.
Proof. by elim: s => [|a s IH] //=; rewrite eqxx orbT IH. Qed.

Lemma zip_nseq_map (f : scalar -> scalar -> scalar) d m :
  [seq f p.1 p.2 | p <- zip d (nseq (size d) m)] = [seq f v m | v <- d].
Proof. by elim: d => [|v d IH] //=; rewrite IH. Qed.

(** A tensor combined with a 0-dimensional one: every element meets the
    single element of the other operand. *)
Lemma broadcast2_scalar f x m :
  wf x -> broadcast2 f x (of_scalar m)
          = Ok (Make (shape x) [seq f v m | v <- data x]).
Proof.
move=> /eqP wfx.
rewrite /broadcast2 /pad_shape /= maxn0 subnn subn0 /= cats0.
rewrite broadcast_shapes_scalar expand_id // expand_scalar -wfx.
by rewrite zip_nseq_map.
Qed.

Lemma sumn_const (A : eqType) (f : A -> nat) (k : nat) (s : seq A) :
  {in s, forall c, f c = k} -> sumn [seq f c | c <- s] = (size s * k)%N.
Proof.
elim: s => [|c s IH] //= H; rewrite H ?mem_head // IH ?mulSn //.
by move=> c' cin; apply: H; rewrite inE cin orbT.
Qed.

Lemma size_expand from to d :
  expandable from to -> size d = numel from ->
  size (expand from to d) = numel to.
Proof.
elim: from to d => [|a from IH] [|b to] d //= /andP [ab ex] sd.
case: ifP ab => [/eqP <- _|_ /= /eqP a1].
  rewrite size_flatten /seq.shape -map_comp.
  rewrite (@sumn_const _ _ (numel to)) ?size_reshape ?size_nseq //.
  move=> c cin /=; apply: IH => //.
  by apply: size_chunk cin; rewrite sd.
rewrite size_flatten /seq.shape map_nseq sumn_nseq mulnC IH //.
by rewrite sd a1 mul1n.
Qed.

Lemma broadcast_shapes_expandable s1 s2 s :
  broadcast_shapes s1 s2 = Some s -> expandable s1 s && expandable s2 s.
Proof.
elim: s1 s2 s => [|a s1 IH] [|b s2] s //=; first by case=> <-.
case: ifP => [ab|_].
  case E: (broadcast_shapes s1 s2) => [s'|] //= -[<-] /=.
  rewrite eqxx /= eq_sym; move/IH: E => /andP [-> ->].
  by rewrite ab.
case: ifP => // /eqP -> {a}.
case E: (broadcast_shapes s1 s2) => [s'|] //= -[<-] /=.
by rewrite !eqxx orbT /=; apply: IH.
Qed.

Lemma numel_cat s1 s2 : numel (s1 ++ s2) = (numel s1 * numel s2)%N.
Proof. by elim: s1 => [|a s1 IH] /=; rewrite ?mul1n // IH mulnA. Qed.

Lemma numel_pad n s : numel (pad_shape n s) = numel s.
Proof. by rewrite /pad_shape numel_cat numel_nseq1 mul1n. Qed.

Lemma numel_rev s : numel (rev s) = numel s.
Proof.
elim: s => [|a s IH] //=.
by rewrite rev_cons -cats1 numel_cat IH /= muln1 mulnC.
Qed.

(** Elementwise operations return well-formed tensors. *)
Lemma wf_broadcast2 f x y z :
  wf x -> wf y -> broadcast2 f x y = Ok z -> wf z.
Proof.
move=> /eqP wfx /eqP wfy; rewrite /broadcast2.
case E: (broadcast_shapes _ _) => [s|] // [<-].
have /andP [e1 e2] := broadcast_shapes_expandable E.
rewrite /wf /= size_map size_zip !size_expand ?numel_pad ?minnn //.
Qed.

(** The matrix product returns a well-formed tensor. *)
Lemma matmul_2d x w lead k m :
  shape x = rcons lead k -> shape w = [:: k; m] ->
  exists y, [/\ matmul x w = Ok y, shape y = rcons lead m & wf y].
Proof.
move=> sx sw; rewrite /matmul sw sx rev_rcons eqxx.
eexists; split; first by [].
  by rewrite /= rev_cons revK.
rewrite /wf /= size_allpairs /rows /chunks size_reshape size_nseq.
by rewrite /cols size_map size_iota rev_cons -cats1 numel_cat !numel_rev /= muln1.
Qed.

Lemma broadcast_shapes_bias lead m :
  broadcast_shapes (rcons lead m) (nseq (size lead) 1%N ++ [:: m])
  = Some (rcons lead m).
Proof.
elim: lead => [|a lead IH] /=; first by rewrite eqxx.
by rewrite eqxx orbT IH.
Qed.

(** Adding a bias vector to the last dimension. *)
Lemma add_bias y b lead m :
  wf y -> shape y = rcons lead m -> wf b -> shape b = [:: m] ->
  exists z, [/\ add y b = Ok z, shape z = rcons lead m & wf z].
Proof.
move=> wfy sy wfb sb.
have E : add y b = Ok (Make (rcons lead m)
           [seq sadd p.1 p.2
              | p <- zip (expand (rcons lead m) (rcons lead m) (data y))
                         (expand (nseq (size lead) 1%N ++ [:: m])
                                 (rcons lead m) (data b))]).
  rewrite /add /broadcast2 sy sb size_rcons /= /pad_shape size_rcons.
  rewrite (maxn_idPl _) // subnn /= subSS subn0.
  by rewrite broadcast_shapes_bias.
by eexists; split; [exact: E | | exact: wf_broadcast2 E].
Qed.

Lemma broadcast_shapes_same s : broadcast_shapes s s = Some s.
Proof. by elim: s => [|a s IH] //=; rewrite eqxx IH. Qed.

(** An elementwise operation on two tensors of one shape. *)
Lemma broadcast2_same f x y :
  wf x -> wf y -> shape x = shape y ->
  broadcast2 f x y
  = Ok (Make (shape x) [seq f p.1 p.2 | p <- zip (data x) (data y)]).
Proof.
move=> /eqP wfx /eqP wfy sxy.
rewrite /broadcast2 -sxy maxnn /pad_shape subnn /=.
by rewrite broadcast_shapes_same !expand_id // sxy.
Qed.

End TorchFacts.

(** ** Facts about scalars and means *)

Section ScalarFacts.

Local Open Scope ring_scope.

Lemma finite_Fin (d : seq scalar) :
  finite d -> d = [seq Fin q | q <- pmap id d].
Proof. by elim: d => [|[q|] d IH] //= /IH {1}->. Qed.

Lemma finite_map_Fin (qs : seq rat) : finite [seq Fin q | q <- qs].
Proof. by elim: qs. Qed.

Lemma ssum_Fin (qs : seq rat) :
  ssum [seq Fin q | q <- qs] = Fin (\sum_(q <- qs) q).
Proof.
elim: qs => [|q qs IH] /=; first by rewrite big_nil.
by rewrite /ssum /= in IH *; rewrite IH big_cons.
Qed.

Lemma ssum_NaN (d : seq scalar) : ~~ finite d -> ssum d = NaN.
Proof.
elim: d => [|[q|] d IH] //= nf; rewrite /ssum /= in IH *.
by rewrite IH.
Qed.

Lemma smean_Fin (qs : seq rat) :
  qs != [::] ->
  smean [seq Fin q | q <- qs] = Fin ((\sum_(q <- qs) q) / (size qs)%:R).
Proof.
case: qs => [|q qs] // _.
by rewrite /smean [map _ _]/= -[Fin q :: _]/(map Fin (q :: qs)) ssum_Fin size_map.
Qed.

Lemma smean_NaN (d : seq scalar) : ~~ finite d -> smean d = NaN.
Proof. by case: d => [|v d] // nf; rewrite /smean ssum_NaN. Qed.

Lemma ssub_NaN (d : seq scalar) :
  [seq ssub v NaN | v <- d] = nseq (size d) NaN.
Proof. by elim: d => [|[q|] d IH] //=; rewrite IH. Qed.

Lemma finite_nseq_NaN n : (0 < n)%N -> ~~ finite (nseq n NaN).
Proof. by case: n. Qed.

Lemma sum_shift (qs : seq rat) (m : rat) :
  \sum_(q <- [seq q - m | q <- qs]) q
  = \sum_(q <- qs) q - (size qs)%:R * m.
Proof.
elim: qs => [|q qs IH] /=; first by rewrite !big_nil mul0r subr0.
rewrite !big_cons IH -natr1 mulrDl mul1r opprD.
by rewrite addrACA [- m + _]addrC.
Qed.

(** The centred elements of a tensor: every element minus the mean. *)
Local Notation center d := [seq ssub v (smean d) | v <- d].

Lemma center_Fin (qs : seq rat) :
  qs != [::] ->
  center [seq Fin q | q <- qs]
  = [seq Fin q | q <- [seq q - (\sum_(q <- qs) q) / (size qs)%:R | q <- qs]].
Proof. by move=> ne; rewrite smean_Fin // -!map_comp. Qed.

Lemma pmap_nonempty (d : seq scalar) :
  finite d -> d != [::] -> pmap id d != [::].
Proof. by case: d => [|[q|] d]. Qed.

Lemma smean_center (d : seq scalar) :
  finite d -> d != [::] -> smean (center d) = Fin 0.
Proof.
move=> fd ne; have qne := pmap_nonempty fd ne.
have cne (f : rat -> rat) : [seq f q | q <- pmap id d] != [::].
  by case: (pmap id d) qne.
rewrite (finite_Fin fd) center_Fin // smean_Fin //.
rewrite sum_shift size_map mulrCA divff ?mulr1 ?subrr ?mul0r //.
by rewrite pnatr_eq0 -lt0n; case: (pmap id d) qne.
Qed.

Lemma center_idem (d : seq scalar) : center (center d) = center d.
Proof.
have [->|ne] // := eqVneq d [::].
case fd : (finite d); last first.
  rewrite [smean d]smean_NaN ?fd // ssub_NaN.
  rewrite smean_NaN ?ssub_NaN ?size_nseq // finite_nseq_NaN //.
  by rewrite lt0n size_eq0.
rewrite smean_center //.
have: finite (center d).
  by rewrite (finite_Fin fd) center_Fin ?finite_map_Fin // pmap_nonempty.
elim: (center d) => [|[q|] c IH] //= /IH ->.
by rewrite /ssub /= subr0.
Qed.

Lemma finite_sadd (d : seq scalar) (c : rat) :
  finite [seq sadd v (Fin c) | v <- d] = finite d.
Proof. by elim: d => [|[q|] d IH] //=. Qed.

Lemma shift_cancel (q S N c : rat) :
  N != 0 -> q - (- c) - (S - N * (- c)) / N = q - S / N.
Proof.
move=> N0; rewrite mulrN !opprK mulrDl [N * c / N]mulrAC divff // mul1r.
by rewrite opprD addrACA subrr addr0.
Qed.

(** Adding one constant to every element moves the mean by that constant,
    so the centred elements do not change. *)
Lemma center_shift (d : seq scalar) (c : rat) :
  center [seq sadd v (Fin c) | v <- d] = center d.
Proof.
have [->|ne] // := eqVneq d [::].
case fd : (finite d); last first.
  have nf : ~~ finite [seq sadd v (Fin c) | v <- d] by rewrite finite_sadd fd.
  by rewrite [smean d]smean_NaN ?fd // (smean_NaN nf) !ssub_NaN size_map.
have qne := pmap_nonempty fd ne.
have n0 : ((size (pmap id d))%:R : rat) != 0.
  by rewrite pnatr_eq0 -lt0n; case: (pmap id d) qne.
have E : [seq sadd v (Fin c) | v <- [seq Fin q | q <- pmap id d]]
         = [seq Fin q | q <- [seq q - (- c) | q <- pmap id d]].
  by rewrite -!map_comp; apply: eq_map => q /=; rewrite /sadd /= opprK.
rewrite (finite_Fin fd) E.
have sne : [seq q - (- c) | q <- pmap id d] != [::] by case: (pmap id d) qne.
rewrite !center_Fin // sum_shift size_map -!map_comp.
by apply: eq_map => q; rewrite /= shift_cancel.
Qed.

End ScalarFacts.

(** ** custom-layer.ipynb: [CenteredLayer] *)

Section CenteredLayerFacts.

Import Tensor.

Local Notation center d := [seq ssub v (smean d) | v <- d].

(** What [forward] returns over the exact library. *)
Lemma CenteredLayer_forward_exact (self : CenteredLayer.t) (x : tensor) :
  wf x ->
  CenteredLayer.forward self x = Ok (Make (shape x) (center (data x))).
Proof.
by move=> wfx; rewrite /CenteredLayer.forward /= /Torch.sub broadcast2_scalar.
Qed.

(** The cell of the notebook: [layer(torch.FloatTensor([1, 2, 3, 4, 5]))]
    prints [tensor([-2., -1.,  0.,  1.,  2.])]. *)
Example CenteredLayer_cell :
  CenteredLayer.forward CenteredLayer.__init__
    (of_list [seq Fin q%:Q | q <- [:: 1; 2; 3; 4; 5]])
  = Ok (of_list [seq Fin q%:Q | q <- [:: -2; -1; 0; 1; 2]]) :> Torch.res tensor.
Proof.
rewrite CenteredLayer_forward_exact //=; congr (Ok (Make _ _)).
Qed.

Lemma wf_center (x : tensor) : wf x -> wf (Make (shape x) (center (data x))).
Proof. by rewrite /wf /= size_map. Qed.

(** C3, as amended.  Over exact arithmetic [CenteredLayer.forward] always
    returns, its result has the shape of the input and is a fixed point of
    [forward] (idempotence, for every input); the mean of the result is
    zero whenever the input has at least one element. *)
Theorem CenteredLayer_forward_zero_mean (self : CenteredLayer.t) (x : tensor) :
  wf x ->
  exists y : tensor,
    [/\ CenteredLayer.forward self x = Ok y,
        shape y = shape x,
        CenteredLayer.forward self y = Ok y
      & finite (data x) -> data x != [::] ->
        Torch.mean y = Ok (of_scalar (Fin 0))].
Proof.
move=> wfx; exists (Make (shape x) (center (data x))).
split=> //; first exact: CenteredLayer_forward_exact.
  by rewrite CenteredLayer_forward_exact ?wf_center //= center_idem.
by move=> fx ne; rewrite /Torch.mean /= smean_center.
Qed.

(** The theorem at the tensor of the notebook's own cell. *)
Lemma CenteredLayer_forward_zero_mean_witness :
  exists y : tensor,
    [/\ CenteredLayer.forward CenteredLayer.__init__
          (of_list [seq Fin q%:Q | q <- [:: 1; 2; 3; 4; 5]]) = Ok y,
        shape y = [:: 5],
        CenteredLayer.forward CenteredLayer.__init__ y = Ok y
      & Torch.mean y = Ok (of_scalar (Fin 0))].
Proof.
case: (@CenteredLayer_forward_zero_mean CenteredLayer.__init__
         (of_list [seq Fin q%:Q | q <- [:: 1; 2; 3; 4; 5]]) (erefl _)).
move=> y [E S I M]; exists y; split; [exact: E | exact: S | exact: I |].
exact: (M (erefl _) (erefl _)).
Defined.

(** C3 as stated does not hold: a tensor without elements is a
    well-formed input with only finite entries, [forward] returns it
    unchanged, and its mean is NaN (0/0), not zero. *)
Lemma CenteredLayer_forward_empty_mean_NaN :
  ~ (forall x : tensor, wf x -> finite (data x) ->
       exists y : tensor,
         CenteredLayer.forward CenteredLayer.__init__ x = Ok y
         /\ Torch.mean y = Ok (of_scalar (Fin 0))).
Proof.
move/(_ (of_list [::]) isT isT) => [y []].
by rewrite CenteredLayer_forward_exact // => -[<-].
Qed.

(** C2, as amended.  [CenteredLayer.forward] obeys laws of its own: it
    keeps the shape of its input, applying it twice is applying it once
    (idempotence), and adding one constant to every element of the input
    does not change its result (translation invariance). *)
Theorem CenteredLayer_forward_shift_invariant
    (self : CenteredLayer.t) (x : tensor) (c : rat) :
  wf x ->
  exists y x' : tensor,
    [/\ CenteredLayer.forward self x = Ok y,
        shape y = shape x,
        CenteredLayer.forward self y = Ok y,
        Torch.add x (of_scalar (Fin c)) = Ok x'
      & CenteredLayer.forward self x' = Ok y].
Proof.
move=> wfx.
exists (Make (shape x) (center (data x))).
exists (Make (shape x) [seq sadd v (Fin c) | v <- data x]).
split=> //; first exact: CenteredLayer_forward_exact.
- by rewrite CenteredLayer_forward_exact ?wf_center //= center_idem.
- by rewrite /Torch.add broadcast2_scalar.
have wfx' : wf (Make (shape x) [seq sadd v (Fin c) | v <- data x]).
  by rewrite /wf /= size_map.
rewrite (CenteredLayer_forward_exact _ wfx').
by congr (Ok (Make _ _)); exact: center_shift.
Qed.

Lemma CenteredLayer_forward_shift_invariant_witness :
  exists y x' : tensor,
    [/\ CenteredLayer.forward CenteredLayer.__init__
          (of_list [seq Fin q%:Q | q <- [:: 1; 2; 3; 4; 5]]) = Ok y,
        shape y = [:: 5],
        CenteredLayer.forward CenteredLayer.__init__ y = Ok y,
        Torch.add (of_list [seq Fin q%:Q | q <- [:: 1; 2; 3; 4; 5]])
                  (of_scalar (Fin 7%:Q)) = Ok x'
      & CenteredLayer.forward CenteredLayer.__init__ x' = Ok y].
Proof.
apply: (@CenteredLayer_forward_shift_invariant CenteredLayer.__init__
          (of_list [seq Fin q%:Q | q <- [:: 1; 2; 3; 4; 5]]) 7%:Q).
reflexivity.
Defined.

(** C2 as stated does not hold: the claim denies that any function
    of the repository is idempotent, and [CenteredLayer.forward] is, on
    every input, without being the identity. *)
Lemma CenteredLayer_forward_has_a_law :
  ~ ~ ((forall x : tensor, wf x ->
          exists y : tensor,
            CenteredLayer.forward CenteredLayer.__init__ x = Ok y
            /\ CenteredLayer.forward CenteredLayer.__init__ y = Ok y)
       /\ CenteredLayer.forward CenteredLayer.__init__
            (of_list [:: Fin 1%:Q; Fin 3%:Q])
          = Ok (of_list [:: Fin (-1)%:Q; Fin 1%:Q])).
Proof.
apply; split; last by rewrite CenteredLayer_forward_exact.
move=> x wfx; exists (Make (shape x) (center (data x))).
by rewrite !CenteredLayer_forward_exact ?wf_center //= center_idem.
Qed.

End CenteredLayerFacts.

(** ** What the notebooks' functions compute depends on the library alone *)

Section Delegation.

Context {E T DS DL E' T' DS' DL' : Type}.
Context {L : TensorLib E T} {L' : TensorLib E' T'}.
Context {D : DataLib E T DS DL} {D' : DataLib E' T' DS' DL'}.
Variables (hE : E -> E') (hT : T -> T') (hDS : DS -> DS') (hDL : DL -> DL').
Hypothesis mor : lib_morphism L L' hE hT.
Hypothesis dmor : data_morphism D D' hE hT hDS hDL.

Lemma map_result_bind A A' B B' (h : A -> A') (h' : B -> B')
    (r : result E A) (k : A -> result E B)
    (r' : result E' A') (k' : A' -> result E' B') :
  map_result hE h r = r' ->
  (forall a, map_result hE h' (k a) = k' (h a)) ->
  map_result hE h' (bind r k) = bind r' k'.
Proof. by case: r => [a|e] <- //= H. Qed.

(** Whenever one library is mapped to another by maps that commute with
    the library's operations, the maps commute with the functions of the
    notebooks as well.  (This holds of every function written over the
    library's interface, whatever it calls.) *)
Lemma layers_commute_with_library_maps :
  [/\ forall (self : CenteredLayer.t) (x : T),
        map_result hE hT (CenteredLayer.forward self x)
        = CenteredLayer.forward self (hT x),
      forall (self : MyLinear.t T) (x : T),
        map_result hE hT (MyLinear.forward self x)
        = MyLinear.forward (MyLinear.map_tensors hT self) (hT x)
    & forall (data_arrays : seq T) (batch_size : int) (is_train : option bool),
        map_result hE hDL (load_array data_arrays batch_size is_train)
        = load_array [seq hT x | x <- data_arrays] batch_size is_train].
Proof.
split.
- move=> self x; apply: map_result_bind; first exact: mor_mean.
  by move=> m; exact: mor_sub.
- move=> self x; apply: map_result_bind; first exact: mor_matmul.
  by move=> y; exact: mor_add.
- move=> arrays bs tr; apply: map_result_bind; first exact: (mor_dataset dmor).
  by move=> ds; exact: (mor_loader dmor).
Qed.

End Delegation.

(** Taking the shape of a tensor maps the exact library to the library
    of shapes. *)
Lemma shape_morphism : lib_morphism exact_lib shape_lib id Tensor.shape.
Proof.
split=> [x|x y|x y|x y] //=.
- by rewrite /Torch.sub /Torch.broadcast2 /TorchShape.broadcast; case: Torch.broadcast_shapes.
- by rewrite /Torch.add /Torch.broadcast2 /TorchShape.broadcast; case: Torch.broadcast_shapes.
- rewrite /Torch.matmul /TorchShape.matmul.
  case: (Tensor.shape y) => [|k [|m [|? ?]]] //;
    by case: (rev (Tensor.shape x)) => [|k' lead] //; case: ifP.
Qed.

Lemma same_size0_shape (t0 : tensor) (ts : seq tensor) :
  TorchData.same_size0 (fun x => TorchShape.size0 (Tensor.shape x)) t0 ts
  = TorchData.same_size0 TorchShape.size0 (Tensor.shape t0)
      [seq Tensor.shape x | x <- ts].
Proof.
elim: ts => [|x ts IH] //=.
case: (TorchShape.size0 (Tensor.shape t0)) => [a|e] //=.
case: (TorchShape.size0 (Tensor.shape x)) => [b|e] //=.
by case: ifP.
Qed.

Lemma shape_data_morphism :
  data_morphism exact_data shape_data id Tensor.shape
    (TorchData.map_dataset Tensor.shape) (TorchData.map_loader Tensor.shape).
Proof.
split=> [ts|ds bs kw] /=.
- rewrite /TorchData.TensorDataset_init.
  have -> : (if [seq Tensor.shape x | x <- ts] is t0 :: _
             then TorchData.same_size0 TorchShape.size0 t0 [seq Tensor.shape x | x <- ts]
             else Ok true)
            = (if ts is t0 :: _
               then TorchData.same_size0 (fun x => TorchShape.size0 (Tensor.shape x)) t0 ts
               else Ok true).
    by case: ts => [|t0 ts] //; rewrite same_size0_shape.
  by case: (match ts with [::] => _ | _ => _ end) => [[]|e].
- by rewrite /TorchData.DataLoader_init; case: ifP.
Qed.

(** The shape of what a layer returns is what the layer returns on
    shapes, and likewise for the loader. *)
Lemma layers_commute_with_shape :
  [/\ forall (self : CenteredLayer.t) (x : tensor),
        map_result id Tensor.shape (CenteredLayer.forward self x)
        = CenteredLayer.forward self (Tensor.shape x),
      forall (self : MyLinear.t tensor) (x : tensor),
        map_result id Tensor.shape (MyLinear.forward self x)
        = MyLinear.forward (MyLinear.map_tensors Tensor.shape self) (Tensor.shape x)
    & forall (data_arrays : seq tensor) (batch_size : int) (is_train : option bool),
        map_result id (TorchData.map_loader Tensor.shape)
          (load_array data_arrays batch_size is_train)
        = load_array [seq Tensor.shape x | x <- data_arrays] batch_size is_train].
Proof.
exact: (layers_commute_with_library_maps shape_morphism shape_data_morphism).
Qed.

(** ** The notebooks' functions compose library calls *)

Section Compositions.

Import Tensor.



Lemma n_ops_leaf (c : expr) (x : tensor) :
  n_ops c = 0%N -> run_expr [::] x c = Ok x.
Proof. by case: c => //= i _; rewrite nth_nil. Qed.


End Compositions.

(** ** Errors *)

Section Errors.

Context {E T DS DL : Type} {L : TensorLib E T} {D : DataLib E T DS DL}.

(** A function that makes two library calls, the second on the result
    of the first, and handles nothing: an error of the first call is its
    result; after a first call that returns, the result or error of the
    second call is its result; and it has no other error. *)
Lemma bind_propagates A B (r : result E A) (k : A -> result E B) :
  [/\ forall e, r = Err e -> bind r k = Err e,
      forall a, r = Ok a -> bind r k = k a
    & forall e, bind r k = Err e ->
        r = Err e \/ exists2 a, r = Ok a & k a = Err e].
Proof.
split=> [e ->|a ->|e] //.
case: r => [a|e'] /= H; first by right; exists a.
by left; case: H => ->.
Qed.

End Errors.

(** C8, as amended.  The functions of the notebooks contain no [raise],
    [assert], [try] or [except].  For [CenteredLayer.forward],
    [MyLinear.forward] and [load_array], over any library with any
    exceptions: an error of the first library call is returned as it
    is, and the second call is not made; when the first call returns,
    the function returns what the second call returns, result or error,
    as it is; and the function has no error but these.  Errors that are
    not the library's come from the interpreter: [init_normal] raises
    [NameError] where the global [net] is not bound. *)
Theorem library_errors_propagate_unchanged :
  (forall (E T DS DL : Type) (L : TensorLib E T) (D : DataLib E T DS DL),
     [/\ forall (self : CenteredLayer.t) (x : T),
           [/\ forall e, lib_mean x = Err e ->
                 CenteredLayer.forward self x = Err e,
               forall m, lib_mean x = Ok m ->
                 CenteredLayer.forward self x = lib_sub x m
             & forall e, CenteredLayer.forward self x = Err e ->
                 lib_mean x = Err e
                 \/ exists2 m, lib_mean x = Ok m & lib_sub x m = Err e],
         forall (self : MyLinear.t T) (x : T),
           [/\ forall e, lib_matmul x (p_data (MyLinear.weight self)) = Err e ->
                 MyLinear.forward self x = Err e,
               forall y, lib_matmul x (p_data (MyLinear.weight self)) = Ok y ->
                 MyLinear.forward self x = lib_add y (p_data (MyLinear.bias self))
             & forall e, MyLinear.forward self x = Err e ->
                 lib_matmul x (p_data (MyLinear.weight self)) = Err e
                 \/ exists2 y, lib_matmul x (p_data (MyLinear.weight self)) = Ok y
                             & lib_add y (p_data (MyLinear.bias self)) = Err e]
       & forall (data_arrays : seq T) (batch_size : int) (is_train : option bool),
           [/\ forall e, lib_TensorDataset data_arrays = Err e ->
                 load_array data_arrays batch_size is_train = Err e,
               forall ds, lib_TensorDataset data_arrays = Ok ds ->
                 load_array data_arrays batch_size is_train
                 = lib_DataLoader ds batch_size
                     (DlKwargs (Some (odflt true is_train)) None)
             & forall e, load_array data_arrays batch_size is_train = Err e ->
                 lib_TensorDataset data_arrays = Err e
                 \/ exists2 ds, lib_TensorDataset data_arrays = Ok ds
                              & lib_DataLoader ds batch_size
                                  (DlKwargs (Some (odflt true is_train)) None)
                                = Err e]])
  /\ (forall (m : module) (st : pystate),
        is_Linear m -> g_net (vars st) = None ->
        parameters_ipynb.init_normal m st = Err (NameError Nnet)).
Proof.
split.
- move=> E T DS DL L D; split.
  + by move=> self x; exact: bind_propagates.
  + by move=> self x; exact: bind_propagates.
  + by move=> arrays bs tr; exact: bind_propagates.
- case=> [i w b|i|i ms] // [h n g [nt sh x y] o] _ /= ->.
  by rewrite /parameters_ipynb.init_normal /= /pbind /get_net /lookup.
Qed.

(** [dense = MyLinear(5, 3)] applied to a batch of rows of length 4, not
    5: the product raises the library's shape error, and [forward]
    returns that error.  [init_normal] on a fresh interpreter raises
    [NameError]. *)
Lemma library_errors_propagate_unchanged_witness :
  MyLinear.forward (MyLinear.__init__ 5 3 samples).1 (randn [:: 2; 4]%N samples).1
  = Err RuntimeError_shape
  /\ parameters_ipynb.init_normal (Linear 0 0%N 1%N) (initial samples)
     = Err (NameError Nnet).
Proof.
have [Hlib Hinit] := library_errors_propagate_unchanged.
have [_ Hm _] := Hlib _ _ _ _ exact_lib exact_data.
have [H _ _] := Hm (MyLinear.__init__ 5 3 samples).1 (randn [:: 2; 4]%N samples).1.
split; first exact: (H RuntimeError_shape (erefl _)).
exact: (Hinit (Linear 0 0%N 1%N) (initial samples) isT (erefl _)).
Defined.

(** C8 as stated does not hold: not every function of the repository
    either succeeds or propagates a library error.  [init_normal] on a
    [Linear] module, on an interpreter where no cell has bound [net],
    does neither: it raises [NameError]. *)
Lemma init_normal_error_is_not_from_the_library :
  ~ (forall (m : module) (st : pystate),
       is_ok (parameters_ipynb.init_normal m st)
       \/ exists e : TorchError,
            parameters_ipynb.init_normal m st = Err (LibraryError e)).
Proof.
move/(_ (Linear 0 0%N 1%N) (initial samples)).
by case=> [|[e]].
Qed.

(** ** The linear-regression notebook: [load_array] *)

(** C10.  The loader [load_array] returns was constructed with the
    library's default of no worker process: batches are produced in the
    calling process.  The other fields are the arguments as passed. *)
Theorem load_array_no_worker_process
    (data_arrays : seq tensor) (batch_size : int) (is_train : option bool)
    (dl : TorchData.DataLoader tensor) :
  load_array data_arrays batch_size is_train = Ok dl ->
  [/\ TorchData.num_workers dl = 0%N,
      TorchData.shuffle dl = odflt true is_train,
      TorchData.batch_size dl = batch_size
    & TorchData.tensors (TorchData.dataset dl) = data_arrays].
Proof.
rewrite /load_array /= /TorchData.TensorDataset_init.
case: (match data_arrays with [::] => _ | _ => _ end) => [[]|e] //=.
by rewrite /TorchData.DataLoader_init; case: ifP => // _ [<-].
Qed.

(** [data_iter = load_array((features, labels), batch_size)] with three
    examples of two features and [batch_size = 10]. *)
Lemma load_array_no_worker_process_witness :
  exists dl : TorchData.DataLoader tensor,
    [/\ TorchData.num_workers dl = 0%N,
        TorchData.shuffle dl = true,
        TorchData.batch_size dl = 10%:Z
      & TorchData.tensors (TorchData.dataset dl)
        = [:: (randn [:: 3; 2] samples).1; (randn [:: 3; 1] samples).1]].
Proof.
eexists.
apply: (@load_array_no_worker_process
          [:: (randn [:: 3; 2] samples).1; (randn [:: 3; 1] samples).1]
          10%:Z None).
reflexivity.
Defined.

(** ** custom-layer.ipynb: [MyLinear] *)

Section MyLinearFacts.

Import Tensor.

Lemma wf_randn s g : wf (randn s g).1.
Proof. by rewrite /wf /= size_map size_iota. Qed.

(** C5, as amended.  [CenteredLayer] has no parameter.  [MyLinear] is a
    layer type of the repository with state of its own: an instance owns two parameters, a weight of shape
    [(in_units, units)] and a bias of shape [(units,)], both fixed by the
    constructor, and [forward] relies on them: on an input whose last
    dimension is [in_units] it returns, with that dimension replaced by
    [units]. *)
Theorem MyLinear_owns_its_parameters (in_units units : nat) (g : generator) :
  let self := (MyLinear.__init__ in_units units g).1 in
  [/\ @CenteredLayer.parameters tensor CenteredLayer.__init__ = [::],
      MyLinear.parameters self = [:: MyLinear.weight self; MyLinear.bias self],
      shape (p_data (MyLinear.weight self)) = [:: in_units; units]
      /\ wf (p_data (MyLinear.weight self)),
      shape (p_data (MyLinear.bias self)) = [:: units]
      /\ wf (p_data (MyLinear.bias self))
    & forall (x : tensor) (lead : seq nat),
        shape x = rcons lead in_units ->
        exists y, [/\ MyLinear.forward self x = Ok y,
                      shape y = rcons lead units & wf y]].
Proof.
rewrite /MyLinear.__init__ /=; split=> //.
- by split=> //; exact: wf_randn.
- by split=> //; exact: wf_randn.
move=> x lead sx; rewrite /MyLinear.forward /=.
have [y [-> sy wfy]] := @matmul_2d x (randn [:: in_units; units] g).1 _ _ units sx (erefl _).
exact: (add_bias wfy sy (wf_randn _ _) (erefl _)).
Qed.

(** [dense = MyLinear(5, 3)] and [dense(torch.randn(2, 5))]. *)
Lemma MyLinear_owns_its_parameters_witness :
  exists y, [/\ MyLinear.forward (MyLinear.__init__ 5 3 samples).1
                  (randn [:: 2; 5] samples).1 = Ok y,
                shape y = [:: 2; 3] & wf y].
Proof.
have [_ _ _ _ H] := MyLinear_owns_its_parameters 5 3 samples.
exact: (H (randn [:: 2; 5] samples).1 [:: 2] (erefl _)).
Defined.

(** C5 as stated does not hold: were no class of the repository to
    own parameters, [MyLinear(5, 3)] would have none; it has two. *)
Lemma MyLinear_has_parameters :
  ~ (forall (in_units units : nat) (g : generator),
       MyLinear.parameters (MyLinear.__init__ in_units units g).1 = [::]).
Proof. by move/(_ 5 3 samples). Qed.

End MyLinearFacts.

(** ** The linear-regression notebook: the training loop *)

Section TrainingFacts.

Import linear_regression.
Context {S T : Type} {L : TrainLib S T}.

Local Notation phases :=
  [:: CallNet; CallLoss; CallZeroGrad; CallBackward; CallStep].

Lemma calls_minibatch_step (r : run) (Xy : T * T) :
  calls (minibatch_step r Xy) = calls r ++ phases.
Proof. by rewrite /minibatch_step /= -!cats1 -!catA. Qed.

Lemma calls_minibatches (r : run) (batches : seq (T * T)) :
  calls (foldl minibatch_step r batches)
  = calls r ++ flatten (nseq (size batches) phases).
Proof.
elim: batches r => [|Xy bs IH] r /=; first by rewrite cats0.
by rewrite IH calls_minibatch_step -catA.
Qed.

Lemma printed_minibatches (r : run) (batches : seq (T * T)) :
  printed (foldl minibatch_step r batches) = printed r.
Proof. by elim: batches r => [|Xy bs IH] r //=; rewrite IH. Qed.

Lemma calls_epoch_body (features labels : T) (r : run) (epoch : nat) :
  calls (epoch_body features labels r epoch)
  = calls r
    ++ flatten (nseq (size (lib_iter (lib_state r)).1) phases)
    ++ [:: CallNet; CallLoss; CallPrint epoch].
Proof.
rewrite /epoch_body; case: (lib_iter _) => batches s /=.
by rewrite calls_minibatches /= -!cats1 -!catA.
Qed.

Lemma printed_epoch_body (features labels : T) (r : run) (epoch : nat) :
  [seq p.1 | p <- printed (epoch_body features labels r epoch)]
  = rcons [seq p.1 | p <- printed r] epoch.
Proof.
rewrite /epoch_body; case: (lib_iter _) => batches s /=.
by rewrite map_rcons printed_minibatches.
Qed.

(** C4, as amended.  The training cell is a loop of its own: for each of
    the epochs 1, 2, 3 and each minibatch of the pass it calls the model,
    the loss, [zero_grad], [backward] and [step], in this order, and
    after the minibatches of an epoch the model and the loss on the whole
    data, then prints a line for the epoch.  ([n] is the number of
    minibatches of a pass.) *)
Theorem training_cell_is_a_loop (n : nat) (features labels : T) (s : S) :
  (forall s' : S, size (lib_iter s').1 = n) ->
  calls (training_cell features labels s)
  = flatten [seq flatten (nseq n phases) ++ [:: CallNet; CallLoss; CallPrint epoch]
               | epoch <- [:: 1; 2; 3]]
  /\ [seq p.1 | p <- printed (training_cell features labels s)] = [:: 1; 2; 3].
Proof.
move=> H; rewrite /training_cell /=; split.
  by rewrite !calls_epoch_body !H /= cats0 -!catA.
by rewrite !printed_epoch_body.
Qed.

End TrainingFacts.

(** The theorem on a loader of two minibatches: 2 * 3 optimizer steps. *)
Lemma training_cell_is_a_loop_witness :
  linear_regression.calls (linear_regression.training_cell tt tt 0)
  = flatten [seq flatten (nseq 2 [:: CallNet; CallLoss; CallZeroGrad; CallBackward; CallStep])
                 ++ [:: CallNet; CallLoss; CallPrint epoch]
               | epoch <- [:: 1; 2; 3]]
  /\ [seq p.1 | p <- linear_regression.printed (linear_regression.training_cell tt tt 0)] = [:: 1; 2; 3].
Proof.
apply: (@training_cell_is_a_loop nat unit step_counter 2 tt tt 0).
by move=> s'.
Defined.

(** C4 as stated does not hold: a cell that demonstrates one API
    call makes at most one call into the library; the training cell, run
    on a loader of two minibatches, makes 39, six of them optimizer
    steps, and leaves the step counter at 6. *)
Lemma training_cell_makes_many_calls :
  ~ (forall (S T : Type) (L : TrainLib S T) (features labels : T) (s : S),
       size (linear_regression.calls (linear_regression.training_cell features labels s)) <= 1)%N
  /\ count (same_call CallStep) (linear_regression.calls (linear_regression.training_cell tt tt 0)) = 6
  /\ linear_regression.lib_state (linear_regression.training_cell tt tt 0) = 6.
Proof. by split=> // /(_ nat unit step_counter tt tt 0). Qed.

(** ** parameters.ipynb: [init_normal] *)

Section InitNormalFacts.

Import parameters_ipynb.

Local Arguments sadd : simpl never.
Local Arguments smul : simpl never.

Lemma advance_advance g a b : advance (advance g a) b = advance g (a + b).
Proof. by rewrite /advance /= addnA. Qed.

Lemma size_draw g n : size (draw g n) = n.
Proof. by rewrite /draw size_map size_iota. Qed.

(** The values [nn.init.normal_(p, mean=0, std=0.01)] writes when the
    generator is [g] and [p] has [k] elements. *)
Local Notation normal_001 g k :=
  [seq sadd (Fin 0) (smul (Fin (1 / 100%:Q)) v) | v <- draw g k].

(** One call of [init_normal] on a [Linear] module, whichever it is, in a
    state where [net[0]] has weight [w0] and bias [b0]. *)
Lemma init_normal_Linear (st : pystate) (m : module) i i0 (w0 b0 : ref) rest :
  is_Linear m ->
  g_net (vars st) = Some (Sequential i (Linear i0 w0 b0 :: rest)) ->
  w0 != b0 ->
  let t := nth no_tensor (heap st) w0 in
  let k := size (Tensor.data t) in
  exists st' : pystate,
    [/\ init_normal m st = Ok (tt, st'),
        [/\ vars st' = vars st, next_id st' = next_id st,
            stdout st' = stdout st & rng st' = advance (rng st) k],
        forall r, r != w0 -> r != b0 ->
          nth no_tensor (heap st') r = nth no_tensor (heap st) r,
        nth no_tensor (heap st') w0
          = Tensor.Make (Tensor.shape t) (normal_001 (rng st) k)
      & nth no_tensor (heap st') b0
          = Tensor.Make (Tensor.shape (nth no_tensor (heap st) b0))
              (nseq (size (Tensor.data (nth no_tensor (heap st) b0))) (Fin 0))].
Proof.
case: m => // im wm bm _; case: st => h n g [nt sh x y] o /= -> d.
set t := nth no_tensor h w0; set k := size (Tensor.data t).
set W := Tensor.Make (Tensor.shape t) (normal_001 g k).
set Z := Tensor.Make (Tensor.shape (nth no_tensor h b0))
           (nseq (size (Tensor.data (nth no_tensor h b0))) (Fin 0)).
exists (PyState (set_nth no_tensor (set_nth no_tensor h w0 W) b0 Z) n
          (advance g k)
          (Globals (Some (Sequential i (Linear i0 w0 b0 :: rest))) sh x y) o).
split=> //=.
- rewrite /init_normal /= /pbind /= /nn_init_zeros_ /pbind /= !nth_set_nth /=.
  by rewrite eq_sym (negbTE d).
- by move=> r rw rb; rewrite nth_set_nth /= (negbTE rb) nth_set_nth /= (negbTE rw).
- by rewrite nth_set_nth /= (negbTE d) nth_set_nth /= eqxx.
- by rewrite nth_set_nth /= eqxx.
Qed.

Lemma init_normal_other (st : pystate) (m : module) :
  ~~ is_Linear m -> init_normal m st = Ok (tt, st).
Proof. by case: m. Qed.

Local Arguments init_normal : simpl never.

(** C7.  [net.apply(init_normal)] on the network of the first cell, a
    [Sequential] of a [Linear], a [ReLU] and a [Linear], all distinct
    objects with distinct parameters: the call returns; [net[2].weight]
    and [net[2].bias] read after the call what they read before it, and
    every tensor other than the parameters of [net[0]] is as it was; the weight of [net[0]] was
    redrawn once for each of the two [Linear] modules visited and holds
    the second draw; the bias of [net[0]] is zero.  [init_normal] does
    the same whichever [Linear] module it is given. *)
Theorem init_normal_writes_net0_only
    (st : pystate) (i i0 i1 i2 : nat) (w0 b0 w2 b2 : ref) :
  g_net (vars st)
    = Some (Sequential i [:: Linear i0 w0 b0; ReLU i1; Linear i2 w2 b2]) ->
  uniq [:: i0; i1; i2] -> uniq [:: w0; b0; w2; b2] ->
  let t := nth no_tensor (heap st) w0 in
  let k := size (Tensor.data t) in
  exists st' : pystate,
    [/\ apply_init_normal st = Ok (tt, st'),
        [/\ eval (weight_of 2) st = Ok (nth no_tensor (heap st) w2),
            eval (weight_of 2) st' = Ok (nth no_tensor (heap st) w2),
            eval (bias_of 2) st = Ok (nth no_tensor (heap st) b2)
          & eval (bias_of 2) st' = Ok (nth no_tensor (heap st) b2)],
        forall r, r != w0 -> r != b0 ->
          nth no_tensor (heap st') r = nth no_tensor (heap st) r,
        [/\ nth no_tensor (heap st') w0
              = Tensor.Make (Tensor.shape t) (normal_001 (advance (rng st) k) k),
            nth no_tensor (heap st') b0
              = Tensor.Make (Tensor.shape (nth no_tensor (heap st) b0))
                  (nseq (size (Tensor.data (nth no_tensor (heap st) b0))) (Fin 0))
          & rng st' = advance (rng st) (k + k)]
      & forall m m' : module, is_Linear m -> is_Linear m' ->
          init_normal m = init_normal m'].
Proof.
move=> Hnet; rewrite /= !inE !negb_or -!andbA.
move=> /and4P [d01 d02 d12 _] /and5P [dwb dw2 dwb2 dbw2 /and3P [dbb2 _ _]].
have [st1 [E1 [V1 N1 O1 R1] F1 W1 Z1]] :=
  init_normal_Linear (m := Linear i0 w0 b0) isT Hnet dwb.
have Hnet1 : g_net (vars st1)
    = Some (Sequential i [:: Linear i0 w0 b0; ReLU i1; Linear i2 w2 b2]).
  by rewrite V1.
have [st2 [E2 [V2 N2 O2 R2] F2 W2 Z2]] :=
  init_normal_Linear (m := Linear i2 w2 b2) isT Hnet1 dwb.
exists st2; split.
- rewrite /apply_init_normal /get_net /lookup /pbind Hnet /= /pbind /=.
  rewrite E1 /= inE eq_sym (negbTE d01) /ret /=.
  rewrite !inE ![i2 == _]eq_sym (negbTE d12) (negbTE d02) /= E2 /=.
  by rewrite init_normal_other.
- rewrite /eval /weight_of /bias_of /get_net /lookup /pbind V2 V1 Hnet /=.
  by split=> //; rewrite F2 ?F1 // eq_sym.
- by move=> r rw rb; rewrite F2 ?F1.
- split; first by rewrite W2 W1 /= R1 size_map size_draw.
    by rewrite Z2 Z1 /= size_nseq.
  by rewrite R2 R1 W1 /= size_map size_draw advance_advance.
- by case=> // ? ? ? [].
Qed.

(** The first cell of the notebook runs on a fresh interpreter and leaves
    [net] as the theorem wants it. *)
Example cell_net_runs :
  is_ok (exec cell_net (initial samples))
  /\ g_net (vars (after cell_net (initial samples)))
     = Some (Sequential 3 [:: Linear 0 0 1; ReLU 1; Linear 2 2 3]).
Proof. split; vm_compute; reflexivity. Qed.

(** The theorem in the state the first cell leaves behind. *)
Lemma init_normal_writes_net0_only_witness :
  exists st' : pystate,
    [/\ apply_init_normal (after cell_net (initial samples)) = Ok (tt, st'),
        eval (weight_of 2) st'
        = Ok (nth no_tensor (heap (after cell_net (initial samples))) 2)
      & eval (bias_of 2) st'
        = Ok (nth no_tensor (heap (after cell_net (initial samples))) 3)].
Proof.
have H : g_net (vars (after cell_net (initial samples)))
    = Some (Sequential 3 [:: Linear 0 0 1; ReLU 1; Linear 2 2 3]).
  vm_compute; reflexivity.
case: (@init_normal_writes_net0_only _ 3 0 1 2 0 1 2 3 H isT isT).
move=> st' [E [_ F2 _ F3] _ _ _].
exists st'; split; assumption.
Defined.

(** The cell as the notebook shows it: it displays a row of four weights
    and a bias of 0. *)
Example cell_init_normal_prints :
  [seq (Tensor.shape t, size (Tensor.data t))
     | t <- drop 1 (stdout (after cell_init_normal (after cell_net (initial samples))))]
  = [:: ([:: 4], 4); ([::], 1)]
  /\ [seq Tensor.data t
        | t <- drop 2 (stdout (after cell_init_normal (after cell_net (initial samples))))]
     == [:: [:: Fin 0]].
Proof. split; vm_compute; reflexivity. Qed.

End InitNormalFacts.

(** ** parameters.ipynb: the tied layer *)

Section Frames.

Lemma keeps_ret A (a : A) : keeps_vars (ret a).
Proof. by move=> st a' st' [_ <-]. Qed.

Lemma keeps_raise A e : keeps_vars (@raise A e).
Proof. by []. Qed.

Lemma keeps_bind A B (c : py A) (k : A -> py B) :
  keeps_vars c -> (forall a, keeps_vars (k a)) -> keeps_vars (pbind c k).
Proof.
move=> Hc Hk st b st'; rewrite /pbind.
case E: (c st) => [[a st1]|e] // /Hk ->.
exact: Hc E.
Qed.

Lemma keeps_lookup A n (field : globals -> option A) : keeps_vars (lookup n field).
Proof. by move=> st a st'; rewrite /lookup; case: (field _) => // ? [_ <-]. Qed.

Lemma keeps_read r : keeps_vars (read r).
Proof. by move=> st a st' [_ <-]. Qed.

Lemma keeps_write r t : keeps_vars (write r t).
Proof. by move=> st a st' [_ <-]. Qed.

Lemma keeps_alloc t : keeps_vars (alloc t).
Proof. by move=> st a st' [_ <-]. Qed.

Lemma keeps_print t : keeps_vars (print t).
Proof. by move=> st a st' [_ <-]. Qed.

Lemma keeps_sample n : keeps_vars (sample n).
Proof. by move=> st a st' [_ <-]. Qed.

Lemma keeps_lift_lib A (r : Torch.res A) : keeps_vars (lift_lib r).
Proof. by move=> st a st'; rewrite /lift_lib; case: r => // ? [_ <-]. Qed.

Lemma keeps_getitem m i : keeps_vars (getitem m i).
Proof.
case: m => [? ? ?|?|? ms] //=; case: ifP => // _.
exact: keeps_ret.
Qed.

Lemma keeps_weight m : keeps_vars (weight m).
Proof. by case: m => // *; exact: keeps_ret. Qed.

Lemma keeps_row t i : keeps_vars (row t i).
Proof.
rewrite /row; case: (Tensor.shape t) => // n rest; case: ifP => // _.
exact: keeps_ret.
Qed.

Lemma keeps_setitem2 r i j v : keeps_vars (setitem2 r i j v).
Proof.
apply: keeps_bind; first exact: keeps_read.
move=> t; case: (Tensor.shape t) => [|n [|m rest]] //; case: ifP => // _.
exact: keeps_write.
Qed.

Lemma keeps_call m x : keeps_vars (call m x).
Proof.
apply: keeps_bind; first exact: keeps_read.
move=> t; apply: keeps_bind; last by move=> ?; exact: keeps_alloc.
by move=> st a st'; case: (forward _ _ _) => //= ? [_ <-].
Qed.

End Frames.

Create HintDb py_frame.

#[local] Hint Resolve keeps_ret keeps_raise keeps_lookup keeps_read
  keeps_write keeps_alloc keeps_print keeps_sample keeps_lift_lib
  keeps_getitem keeps_weight keeps_row keeps_setitem2 keeps_call : py_frame.

Section TiedFacts.

Import parameters_ipynb.

Ltac keeps :=
  repeat first
    [ solve [ rewrite /get_net /get_x /torch_eq; auto with py_frame ]
    | apply: keeps_bind; [ | move=> ? ] ].

(** Unfold the calls that build objects and bind names, and run them,
    arguments first. *)
Ltac pyrun :=
  cbv [nth cell_tied cell_untied cell_net
       nn_Linear nn_ReLU nn_Sequential torch_randn
       set_shared set_net set_x set_y set_vars fresh_id sample alloc lookup
       get_net get_x get_y pbind ret
       heap next_id rng vars stdout g_net g_shared g_x g_y].

Lemma keeps_print_rows_equal : keeps_vars print_rows_equal.
Proof. by rewrite /print_rows_equal; keeps. Qed.

(** Where [net[2].weight] and [net[4].weight] are one object, they hold
    one tensor. *)
Local Notation tied st :=
  (exists r : ref,
     [/\ eval (weight_ref 2) st = Ok r, eval (weight_ref 4) st = Ok r,
         eval (weight_of 2) st = Ok (nth no_tensor (heap st) r)
       & eval (weight_of 4) st = Ok (nth no_tensor (heap st) r)]).

(** Statements that keep the bindings keep whatever depends on the
    bindings alone. *)
Lemma always_states (P : pystate -> Prop) (c : seq stmt) (st : pystate) :
  each keeps_vars c ->
  (forall st', vars st' = vars st -> P st') ->
  always P (states c st).
Proof.
elim: c st => [|s c IH] st //= [Hs Hc] HP.
case E: (s st) => [[[] st']|e] //=.
have V := Hs _ _ _ E.
split; first exact: HP.
by apply: IH => // st'' V'; apply: HP; rewrite V' V.
Qed.

(** A network with one [Linear] object at positions 2 and 4. *)
Lemma tied_of_net (st : pystate) i l0 r1 r3 r5 l6 j (ws bs : ref) :
  g_net (vars st)
    = Some (Sequential i [:: l0; r1; Linear j ws bs; r3; Linear j ws bs; r5; l6]) ->
  tied st.
Proof.
case: st => h n g [nt sh x y] o /= ->; exists ws.
by split; rewrite /eval /weight_of /weight_ref /get_net /lookup /pbind.
Qed.

(** The first two statements of the cell always run, and bind [net] to such
    a network; the weight of the shared layer is a finite 8-by-8 matrix. *)
Lemma tied_net_built (st0 : pystate) :
  exists st1 st2 i l0 r1 r3 r5 l6 j ws bs,
    [/\ nth (ret tt) cell_tied 0 st0 = Ok (tt, st1),
        nth (ret tt) cell_tied 1 st1 = Ok (tt, st2),
        g_net (vars st2)
        = Some (Sequential i [:: l0; r1; Linear j ws bs; r3; Linear j ws bs; r5; l6]),
        [/\ Tensor.shape (nth no_tensor (heap st2) ws) = [:: 8; 8],
            Tensor.wf (nth no_tensor (heap st2) ws)
          & finite (Tensor.data (nth no_tensor (heap st2) ws))]
      & (ws < size (heap st2))%N /\ stdout st2 = stdout st0].
Proof.
case: st0 => h n g [nt sh x y] o.
do 11!eexists; split.
- pyrun; reflexivity.
- pyrun; reflexivity.
- reflexivity.
- rewrite [heap _]/= -!cats1 -!catA nth_cat ltnn subnn /=.
  by split=> //; rewrite /Tensor.wf /= size_draw muln1.
- by rewrite /= !size_rcons !ltnS; split=> //; do 5!apply: leqW.
Qed.

Lemma states_cons (s : stmt) (c : seq stmt) (st st' : pystate) :
  s st = Ok (tt, st') -> states (s :: c) st = st' :: states c st'.
Proof. by move=> /= ->. Qed.

Lemma feq_same (d : seq scalar) :
  finite d -> [seq feq p.1 p.2 | p <- zip d d] = nseq (size d) (Fin 1).
Proof. by elim: d => [|[q|] d IH] //= /IH ->; rewrite eqxx. Qed.

Lemma finite_take n (d : seq scalar) : finite d -> finite (take n d).
Proof. by move=> /allP H; apply/allP => v /mem_take /H. Qed.

Lemma finite_drop n (d : seq scalar) : finite d -> finite (drop n d).
Proof. by move=> /allP H; apply/allP => v /mem_drop /H. Qed.

(** The comparison [net[2].weight.data[0] == net[4].weight.data[0]] where
    the two layers are one object holding a finite matrix: every element
    compares equal. *)
Lemma print_rows_equal_tied (st : pystate) i l0 r1 r3 r5 l6 j (ws bs : ref) n m :
  g_net (vars st)
    = Some (Sequential i [:: l0; r1; Linear j ws bs; r3; Linear j ws bs; r5; l6]) ->
  Tensor.shape (nth no_tensor (heap st) ws) = [:: n.+1; m] ->
  Tensor.wf (nth no_tensor (heap st) ws) ->
  finite (Tensor.data (nth no_tensor (heap st) ws)) ->
  print_rows_equal st
  = Ok (tt, PyState (heap st) (next_id st) (rng st) (vars st)
              (rcons (stdout st) (Tensor.Make [:: m] (nseq m (Fin 1))))).
Proof.
case: st => h k g [nt sh x y] o /= -> sW wfW fW.
set D := Tensor.data (nth no_tensor h ws).
have sD : size (take m D) = m.
  by rewrite size_takel // /D (eqP wfW) sW /= muln1 leq_pmull.
have wfr : Tensor.wf (Tensor.Make [:: m] (take m D)) by rewrite /Tensor.wf /= sD muln1.
rewrite /print_rows_equal /get_net /lookup /pbind /= /row sW /= /pbind /=.
rewrite sW /= !muln1 !mul0n !drop0 -/D /torch_eq broadcast2_same //=.
by rewrite feq_same ?finite_take // sD.
Qed.

(** The last three statements of the cell, in a state where [net] holds
    one [Linear] object at positions 2 and 4 whose weight is a finite
    matrix: the comparison prints [True] for every element, the write of
    100 into [net[2].weight.data[0, 0]] is read back through [net[4]],
    and the comparison prints [True] for every element again. *)
Lemma tied_write_is_shared (st : pystate) i l0 r1 r3 r5 l6 j (ws bs : ref) n m :
  g_net (vars st)
    = Some (Sequential i [:: l0; r1; Linear j ws bs; r3; Linear j ws bs; r5; l6]) ->
  Tensor.shape (nth no_tensor (heap st) ws) = [:: n.+1; m.+1] ->
  Tensor.wf (nth no_tensor (heap st) ws) ->
  finite (Tensor.data (nth no_tensor (heap st) ws)) ->
  exists st' : pystate,
    [/\ exec (drop 3 cell_tied) st = Ok st',
        stdout st'
        = stdout st ++ [:: Tensor.Make [:: m.+1] (nseq m.+1 (Fin 1));
                           Tensor.Make [:: m.+1] (nseq m.+1 (Fin 1))],
        eval (weight_of 2) st' = eval (weight_of 4) st'
      & exists2 t, eval (weight_of 4) st' = Ok t
                 & nth NaN (Tensor.data t) 0 = Fin 100%:Q].
Proof.
move=> Hnet sW wfW fW.
rewrite /cell_tied [drop _ _]/= /exec.
rewrite (print_rows_equal_tied Hnet sW wfW fW).
case: st Hnet sW wfW fW => h k g [nt sh x y] o /= -> sW wfW fW.
rewrite /get_net /lookup /pbind /= /setitem2 /pbind /= sW /= take0 /=.
rewrite ?mul0n ?muln1 ?add0n ?mul0n ?add0n.
set D := Tensor.data (nth no_tensor h ws).
set W' := Tensor.Make _ _.
set st1 := PyState _ _ _ _ _.
have E : nth no_tensor (heap st1) ws = W' by rewrite /st1 /= nth_set_nth /= eqxx.
have sD : (0 < size D)%N by rewrite /D (eqP wfW) sW /= muln1.
have wfW' : Tensor.wf (nth no_tensor (heap st1) ws).
  by rewrite E /Tensor.wf /= size_drop subn1 prednK // /D (eqP wfW) sW.
have fW' : finite (Tensor.data (nth no_tensor (heap st1) ws)).
  by rewrite E /= finite_drop.
have sW' : Tensor.shape (nth no_tensor (heap st1) ws) = [:: n.+1; m.+1] by rewrite E.
rewrite (print_rows_equal_tied (st := st1) (erefl _) sW' wfW' fW').
eexists; split; first by [].
- by rewrite /= -!cats1 -catA.
- by [].
- by exists W' => //; rewrite /eval /weight_of /get_net /lookup /pbind /= nth_set_nth /= eqxx.
Qed.

Lemma exec_cons (s : stmt) (c : seq stmt) (st st' : pystate) :
  s st = Ok (tt, st') -> exec (s :: c) st = exec c st'.
Proof. by move=> /= ->. Qed.

(** The forward pass [net(x)] adds one tensor object and changes nothing
    else. *)
Lemma forward_statement_frame (st st' : pystate) :
  nth (ret tt) cell_tied 2 st = Ok (tt, st') ->
  [/\ exists y, heap st' = rcons (heap st) y,
      vars st' = vars st & stdout st' = stdout st].
Proof.
case: st => h n g [[net|] sh [x|] y] o //=.
rewrite /pbind /= /call /pbind /=.
by case: (forward h net _) => [t|e] //= [<-]; split=> //; exists t.
Qed.

(** C6.  In the cell that builds the network with the [shared] layer, the
    first two statements always run; from the moment [net] is bound, after
    every statement of the cell that runs (the forward pass, the two
    prints, the write of 100 into [net[2].weight.data[0, 0]]),
    [net[2].weight] and [net[4].weight] are one and the same tensor
    object, so that reading either gives the same tensor.  Where the
    forward pass runs, the whole cell runs: both comparisons print [True]
    for each of the eight elements, and at the end the element at [0, 0]
    of the tensor read through either layer is 100. *)
Theorem tied_weights_stay_equal (st0 : pystate) :
  [/\ (2 <= size (states cell_tied st0))%N,
      always (fun st => tied st) (drop 1 (states cell_tied st0))
    & (3 <= size (states cell_tied st0))%N ->
      exists st6 : pystate,
        [/\ exec cell_tied st0 = Ok st6,
            stdout st6
            = stdout st0 ++ [:: Tensor.Make [:: 8] (nseq 8 (Fin 1));
                                Tensor.Make [:: 8] (nseq 8 (Fin 1))]
          & exists2 t, eval (weight_of 2) st6 = Ok t /\ eval (weight_of 4) st6 = Ok t
                     & nth NaN (Tensor.data t) 0 = Fin 100%:Q]].
Proof.
have [st1 [st2 [i [l0 [r1 [r3 [r5 [l6 [j [ws [bs [E1 E2 Hnet [sW wfW fW] [lt O2]]]]]]]]]]]]] :=
  tied_net_built st0.
rewrite {1 2 3}/cell_tied (states_cons _ E1) (states_cons _ E2).
have D1 : forall (a : pystate) l, drop 1 (a :: l) = l by move=> a l; rewrite drop1.
split; first by [].
- rewrite D1; split; first exact: tied_of_net Hnet.
  apply: (@always_states (fun st => tied st)).
    by do !split=> //; try exact: keeps_print_rows_equal; keeps.
  by move=> st' V; apply: tied_of_net; rewrite V; exact: Hnet.
- rewrite /cell_tied (exec_cons _ E1) (exec_cons _ E2).
  rewrite [states _ st2]/=.
  case E3 : (_ st2) => [[[] st3]|e] // _.
  have [[y Hh] V3 O3] := forward_statement_frame E3.
  have R : nth no_tensor (heap st3) ws = nth no_tensor (heap st2) ws.
    by rewrite Hh nth_rcons lt.
  have Hnet3 : g_net (vars st3)
      = Some (Sequential i [:: l0; r1; Linear j ws bs; r3; Linear j ws bs; r5; l6]).
    by rewrite V3.
  rewrite -R in sW wfW fW.
  have [st6 [E6 O6 W24 [t Et T0]]] := tied_write_is_shared Hnet3 sW wfW fW.
  exists st6; split.
  + by rewrite (exec_cons _ E3); exact: E6.
  + by rewrite O6 O3 O2.
  + by exists t => //; rewrite W24.
Qed.

(** The theorem after the first cell of the notebook, on a fresh
    interpreter: the forward pass runs there. *)
Lemma tied_weights_stay_equal_witness :
  exists st6 : pystate,
    [/\ exec cell_tied (after cell_net (initial samples)) = Ok st6,
        stdout st6
        = stdout (after cell_net (initial samples))
          ++ [:: Tensor.Make [:: 8] (nseq 8 (Fin 1));
                 Tensor.Make [:: 8] (nseq 8 (Fin 1))]
      & exists2 t, eval (weight_of 2) st6 = Ok t /\ eval (weight_of 4) st6 = Ok t
                 & nth NaN (Tensor.data t) 0 = Fin 100%:Q].
Proof.
case: (tied_weights_stay_equal (after cell_net (initial samples))) => _ _ H.
apply: H.
vm_compute; reflexivity.
Defined.

(** The cells in the order of the notebook, on a fresh interpreter: the
    whole cell runs, both comparisons print [True] eight times, and after
    the write the element read through [net[4]] is 100. *)
Example cell_tied_runs :
  let st := after cell_net (initial samples) in
  [/\ size (states cell_tied st) = 6,
      [seq Tensor.data t | t <- drop 1 (stdout (after cell_tied st))]
        == [:: nseq 8 (Fin 1); nseq 8 (Fin 1)]
    & (if eval (weight_of 4) (after cell_tied st) is Ok t
       then nth NaN (Tensor.data t) 0 == Fin 100%:Q else false)].
Proof. split; vm_compute; reflexivity. Qed.

(** With two separate layers in place of the shared one, the same write
    reaches [net[2]] only: the comparison prints [False] for the element
    written (the two layers here happen to start from equal samples). *)
Example cell_untied_differs :
  let st := after cell_untied (after cell_net (initial samples)) in
  [seq Tensor.data t | t <- drop 1 (stdout st)] == [:: Fin 0 :: nseq 7 (Fin 1)].
Proof. vm_compute; reflexivity. Qed.

End TiedFacts.

(** ** Cells depend on the cells before them *)

Section CellState.

Import parameters_ipynb ndarray_ipynb.

(** C9, as amended.  The cells of a notebook run one after the other on
    one interpreter state, and what a cell returns depends on that state.
    The cell [before = id(y); y = y + x; id(y) == before] raises
    [NameError] unless an earlier cell has bound [y] and [x]; where they
    are bound to tensors that can be added, it returns [False] and leaves
    [y] bound to a new tensor object holding the sum, every older object
    as it was.  The cell that applies [init_normal] raises [NameError]
    unless an earlier cell has bound [net]. *)
Theorem cells_read_the_state_before_them (st : pystate) :
  [/\ g_y (vars st) = None -> eval cell_id_y st = Err (NameError Ny),
      forall ry : ref,
        g_y (vars st) = Some ry -> g_x (vars st) = None ->
        eval cell_id_y st = Err (NameError Nx),
      forall (rx ry : ref) (s : tensor),
        g_y (vars st) = Some ry -> g_x (vars st) = Some rx ->
        (ry < size (heap st))%N ->
        Torch.add (nth no_tensor (heap st) ry) (nth no_tensor (heap st) rx) = Ok s ->
        exists st' : pystate,
          [/\ cell_id_y st = Ok (false, st'),
              g_y (vars st') = Some (size (heap st)),
              heap st' = rcons (heap st) s
            & g_x (vars st') = Some rx]
    & g_net (vars st) = None ->
      exec cell_init_normal st = Err (NameError Nnet)].
Proof.
case: st => h n g [nt sh x y] o /=; split.
- by move=> ->.
- by move=> ry -> ->.
- move=> rx ry s -> -> lt E.
  rewrite /cell_id_y /get_y /get_x /lookup /pbind /= E /= gtn_eqF //.
  by eexists; split; reflexivity.
- by move=> ->.
Qed.

(** The theorem in the state left by the cell that binds [x] and [y]:
    [y] was object 1 and becomes object 2. *)
Lemma cells_read_the_state_before_them_witness :
  exists st' : pystate,
    [/\ cell_id_y (after cell_xy (initial samples)) = Ok (false, st'),
        g_y (vars st') = Some 2
      & g_x (vars st') = Some 0].
Proof.
have [_ _ H _] := cells_read_the_state_before_them (after cell_xy (initial samples)).
have [st' [E Y _ X]] := H 0 1 _ (erefl _) (erefl _) isT (erefl _).
by exists st'.
Defined.

(** C9 as stated does not hold: were the value of a cell independent
    of the state it runs in, the cell [id(y) == before] would return the
    same on a fresh interpreter and after the cell that binds [x] and
    [y]; and so would the [init_normal] cell on a fresh interpreter and
    after the cell that builds [net].  On the fresh interpreter both
    raise [NameError]; after those cells both return. *)
Lemma cells_are_not_standalone :
  ~ (forall st1 st2 : pystate, eval cell_id_y st1 = eval cell_id_y st2)
  /\ ~ (forall st1 st2 : pystate,
          is_ok (exec cell_init_normal st1) = is_ok (exec cell_init_normal st2)).
Proof.
split.
- move/(_ (initial samples) (after cell_xy (initial samples))).
  by vm_compute.
- move/(_ (initial samples) (after cell_net (initial samples))).
  by vm_compute.
Qed.

End CellState.

(** * Further properties of the notebooks' code *)

(** ** The training loop, for any loader *)

Section TrainingOrder.

Import linear_regression.
Context {S T : Type} {L : TrainLib S T}.

Local Notation phases :=
  [:: CallNet; CallLoss; CallZeroGrad; CallBackward; CallStep].

(** The calls on the optimizer and on the gradients. *)
Local Notation optimizer_call :=
  (fun c => [|| same_call CallZeroGrad c, same_call CallBackward c
              | same_call CallStep c]).

Lemma filter_flatten_nseq (A : Type) (p : pred A) n (l : seq A) :
  filter p (flatten (nseq n l)) = flatten (nseq n (filter p l)).
Proof. by elim: n => //= n IH; rewrite filter_cat IH. Qed.

Lemma count_flatten_nseq (A : Type) (p : pred A) n (l : seq A) :
  count p (flatten (nseq n l)) = (n * count p l)%N.
Proof. by elim: n => //= n IH; rewrite count_cat IH mulSn. Qed.

Lemma flatten_nseqD (A : Type) n1 n2 (l : seq A) :
  flatten (nseq n1 l) ++ flatten (nseq n2 l) = flatten (nseq (n1 + n2) l).
Proof. by rewrite nseqD flatten_cat. Qed.

(** X1.  Whatever the loader yields, and however many minibatches each
    of the three passes has, the training cell calls [zero_grad],
    [backward] and [step] only in this order, one after the other: the
    gradients are cleared before every backward pass, and every backward
    pass is followed by one optimizer step.  The model and the loss are
    each called once per optimizer step and three times more (once at the
    end of each epoch). *)
Theorem training_cell_clears_gradients_before_backward
    (features labels : T) (s : S) :
  let cs := calls (training_cell features labels s) in
  exists k : nat,
    [/\ filter optimizer_call cs
        = flatten (nseq k [:: CallZeroGrad; CallBackward; CallStep]),
        count (same_call CallStep) cs = k,
        count (same_call CallNet) cs = (k + 3)%N
      & count (same_call CallLoss) cs = (k + 3)%N].
Proof.
rewrite /training_cell /= !calls_epoch_body /=.
set n1 := size _; set n2 := size _; set n3 := size _.
exists (n1 + n2 + n3)%N; split.
- rewrite !filter_cat !filter_flatten_nseq /= !cats0.
  by rewrite !flatten_nseqD.
- by rewrite !count_cat !count_flatten_nseq /= !muln1 !addn0.
- rewrite !count_cat !count_flatten_nseq /= !muln1 !addn0.
  by rewrite ?add0n !addn1 addn3 !addnS !addSn.
- rewrite !count_cat !count_flatten_nseq /= !muln1 !addn0.
  by rewrite ?add0n !addn1 addn3 !addnS !addSn.
Qed.

(** The line of an epoch reports the model as the epoch leaves it. *)
Lemma printed_epoch_state (features labels : T) (r : run) (epoch : nat) :
  printed (epoch_body features labels r epoch)
  = rcons (printed r)
      (epoch,
       lib_loss (lib_net (lib_state (epoch_body features labels r epoch)) features)
         labels).
Proof.
rewrite /epoch_body; case: (lib_iter _) => batches s0 /=.
by rewrite printed_minibatches.
Qed.

(** X2.  The loss the training cell prints for an epoch is not the loss
    of the last minibatch: it is the loss on the whole data ([features],
    [labels]) of the model as it stands after the last optimizer step of
    that epoch.  In particular the last line printed reports the model
    the cell leaves behind. *)
Theorem training_cell_prints_loss_on_whole_data (features labels : T) (s : S) :
  let upto e := foldl (epoch_body features labels) (Run s [::] [::]) (iota 1 e) in
  printed (training_cell features labels s)
  = [seq (e, lib_loss (lib_net (lib_state (upto e)) features) labels)
       | e <- [:: 1; 2; 3]]
  /\ upto 3 = training_cell features labels s.
Proof.
by rewrite /training_cell /= !printed_epoch_state.
Qed.

End TrainingOrder.

(** ** [load_array]: which error, and which first *)

Section LoadArrayErrors.

Import Tensor.

Local Notation size0 := (fun x : tensor => TorchShape.size0 (shape x)).

Lemma same_size0_rank1 (t0 : tensor) (ts : seq tensor) :
  shape t0 != [::] -> all (fun t => shape t != [::]) ts ->
  TorchData.same_size0 size0 t0 ts
  = Ok (all (fun t => head 0%N (shape t) == head 0%N (shape t0)) ts).
Proof.
case: t0 => [[|n s0] d0] //= _.
elim: ts => [|[[|m s] d] ts IH] //= /IH ->.
by rewrite eq_sym; case: eqP.
Qed.

(** X3.  The errors of [load_array] over the exact library, in the order
    in which the body meets them.  A first array without dimensions is
    an [IndexError].  Arrays (each with at least one dimension) that
    differ in their first dimension are an [AssertionError], raised by
    the dataset before the loader is built, so also when the batch size
    is not positive.  Arrays that agree with a batch size that is not
    positive are a [ValueError]. *)
Theorem load_array_error_order
    (t0 : tensor) (ts : seq tensor) (batch_size : int) (is_train : option bool) :
  let agree := all (fun t => head 0%N (shape t) == head 0%N (shape t0)) ts in
  [/\ shape t0 = [::] ->
      load_array (t0 :: ts) batch_size is_train = Err IndexError,
      all (fun t => shape t != [::]) (t0 :: ts) -> ~~ agree ->
      load_array (t0 :: ts) batch_size is_train = Err AssertionError
    & all (fun t => shape t != [::]) (t0 :: ts) -> agree ->
      (batch_size <= 0)%R ->
      load_array (t0 :: ts) batch_size is_train = Err ValueError].
Proof.
split.
- by rewrite /load_array /= /TorchData.TensorDataset_init /= => ->.
- move=> /= /andP [r0 rs] /negbTE ag.
  rewrite /load_array /= /TorchData.TensorDataset_init.
  rewrite (@same_size0_rank1 t0 (t0 :: ts)) /= ?r0 ?rs //.
  by rewrite eqxx ag.
- move=> /= /andP [r0 rs] ag le0.
  rewrite /load_array /= /TorchData.TensorDataset_init.
  rewrite (@same_size0_rank1 t0 (t0 :: ts)) /= ?r0 ?rs //.
  by rewrite eqxx ag /= /TorchData.DataLoader_init le0.
Qed.

(** The theorem on the notebook's call [load_array((features, labels),
    batch_size)] with 1000 rows of features and 999 labels, and with
    a batch size of 0. *)
Lemma load_array_error_order_witness :
  load_array [:: Make [:: 1000; 2] [::]; Make [:: 999; 1] [::]] 10 None
  = Err AssertionError
  /\ load_array [:: Make [:: 1000; 2] [::]; Make [:: 1000; 1] [::]] 0 None
     = Err ValueError.
Proof.
split.
- have [_ H _] :=
    load_array_error_order (Make [:: 1000; 2] [::]) [:: Make [:: 999; 1] [::]]
      10 None.
  exact: H.
- have [_ _ H] :=
    load_array_error_order (Make [:: 1000; 2] [::]) [:: Make [:: 1000; 1] [::]]
      0 None.
  exact: H.
Defined.

End LoadArrayErrors.

(** ** [MyLinear.forward]: the inputs it accepts *)

Section MyLinearErrors.

Import Tensor.

Lemma MyLinear_forward_dim0 (self : MyLinear.t tensor) (x : tensor) k m :
  shape (p_data (MyLinear.weight self)) = [:: k; m] -> shape x = [::] ->
  MyLinear.forward self x = Err RuntimeError_dim.
Proof. by move=> sw sx; rewrite /MyLinear.forward /= /Torch.matmul sw sx. Qed.

(** What [matmul] and [MyLinear.forward] need of their input to return. *)
Lemma matmul_2d_inv (x w y : tensor) k m :
  shape w = [:: k; m] -> Torch.matmul x w = Ok y ->
  exists lead, [/\ shape x = rcons lead k, shape y = rcons lead m & wf y].
Proof.
move=> sw E.
have sx : shape x = rev (rev (shape x)) by rewrite revK.
move: (E) sx; rewrite {1}/Torch.matmul sw.
case: (rev (shape x)) => [|k' lead'] //; case: eqP => // -> _.
rewrite rev_cons => sx; exists (rev lead').
have [y' [E' sy wfy]] := matmul_2d sx sw.
by move: E; rewrite E' => -[<-].
Qed.

Lemma MyLinear_forward_inv (self : MyLinear.t tensor) (x h : tensor) k m :
  shape (p_data (MyLinear.weight self)) = [:: k; m] ->
  shape (p_data (MyLinear.bias self)) = [:: m] ->
  wf (p_data (MyLinear.bias self)) ->
  MyLinear.forward self x = Ok h ->
  exists lead, [/\ shape x = rcons lead k, shape h = rcons lead m & wf h].
Proof.
move=> sw sb wfb; rewrite /MyLinear.forward.
case E: (lib_matmul x _) => [y|e] //= Eh.
have [lead [sx sy wfy]] := matmul_2d_inv sw E.
have [z [Ez sz wfz]] := add_bias wfy sy wfb sb.
by exists lead; move: Eh; rewrite [Torch.add _ _]Ez => -[<-].
Qed.

(** X4.  [MyLinear(in_units, units).forward] returns only on inputs with
    at least one dimension whose last dimension is [in_units]: on every
    other input the library's [matmul] raises, and on an input without
    dimensions it raises its [RuntimeError] on the number of dimensions.
    The bias is never the cause of an error: whenever [matmul(x,
    weight)] returns, [forward] returns a tensor of the shape of that
    product. *)
Theorem MyLinear_forward_rejects (in_units units : nat) (g : generator) (x : tensor) :
  let self := (MyLinear.__init__ in_units units g).1 in
  [/\ is_ok (MyLinear.forward self x) ->
      (shape x != [::]) && (last 0%N (shape x) == in_units),
      shape x = [::] -> MyLinear.forward self x = Err RuntimeError_dim
    & forall y, Torch.matmul x (p_data (MyLinear.weight self)) = Ok y ->
      exists2 z, MyLinear.forward self x = Ok z & shape z = shape y].
Proof.
move=> self.
have sw : shape (p_data (MyLinear.weight self)) = [:: in_units; units] by [].
have sb : shape (p_data (MyLinear.bias self)) = [:: units] by [].
have wfb : wf (p_data (MyLinear.bias self)) by exact: wf_randn.
split.
- case E: (MyLinear.forward self x) => [h|e] // _.
  have [lead [-> _ _]] := MyLinear_forward_inv sw sb wfb E.
  by rewrite last_rcons eqxx andbT; case: (lead).
- exact: MyLinear_forward_dim0 sw.
- move=> y E; have [lead [sx sy wfy]] := matmul_2d_inv sw E.
  have [z [Ez sz wfz]] := add_bias wfy sy wfb sb.
  by exists z; rewrite ?sz ?sy // /MyLinear.forward [lib_matmul _ _]E.
Qed.

(** The theorem on [dense = MyLinear(5, 3)] and [dense(torch.randn(2,
    5))], which returns. *)
Lemma MyLinear_forward_rejects_witness :
  (shape (randn [:: 2; 5]%N samples).1 != [::])
  && (last 0%N (shape (randn [:: 2; 5]%N samples).1) == 5%N).
Proof.
have [H _ _] :=
  MyLinear_forward_rejects 5 3 samples (randn [:: 2; 5]%N samples).1.
apply: H; vm_compute; reflexivity.
Defined.

End MyLinearErrors.

(** ** Finite values stay finite *)

Section FiniteFacts.

Import Tensor Torch.

Lemma all_flatten_all (A : Type) (p : pred A) (ss : seq (seq A)) :
  all p (flatten ss) = all (all p) ss.
Proof. by elim: ss => //= s ss IH; rewrite all_cat IH. Qed.

Lemma finite_ssum (d : seq scalar) : finite d -> isSome (ssum d).
Proof. by move=> fd; rewrite (finite_Fin fd) ssum_Fin. Qed.

Lemma finite_dot (u v : seq scalar) : finite u -> finite v -> isSome (dot u v).
Proof.
move=> fu fv; apply: finite_ssum.
by elim: u v fu fv => [|[p|] u IH] [|[q|] v] //= fu fv; apply: IH.
Qed.

Lemma finite_reshape sh (d : seq scalar) :
  finite d -> all finite (reshape sh d).
Proof.
elim: sh d => [|n sh IH] d fd //=.
by rewrite finite_take // IH // finite_drop.
Qed.

Lemma finite_cols k m (d : seq scalar) :
  size d = (k * m)%N -> finite d -> all finite (cols k m d).
Proof.
move=> sd /allP fd; apply/allP => c /mapP [j]; rewrite mem_iota /= add0n => jm ->.
apply/allP => v /mapP [i]; rewrite mem_iota /= add0n => ik ->.
apply: fd; apply: mem_nth; rewrite sd.
apply: (@leq_trans (i.+1 * m)%N); last by rewrite leq_mul2r ik orbT.
by rewrite mulSn [(m + _)%N]addnC ltn_add2l.
Qed.

Lemma finite_expand from to (d : seq scalar) :
  finite d -> finite (expand from to d).
Proof.
elim: from to d => [|a from IH] [|b to] d fd //=.
case: ifP => _; rewrite /finite all_flatten_all.
  rewrite all_map; apply/allP => c cin /=; apply: IH.
  by move/allP: (finite_reshape (nseq a (numel from)) fd); apply.
by rewrite all_nseq [all _ _]IH // orbT.
Qed.

Lemma finite_broadcast2 (f : scalar -> scalar -> scalar) (x y z : tensor) :
  (forall p q, isSome (f (Some p) (Some q))) ->
  finite (data x) -> finite (data y) -> broadcast2 f x y = Ok z ->
  finite (data z).
Proof.
move=> Hf fx fy; rewrite /broadcast2.
case: (broadcast_shapes _ _) => [s|] // [<-] /=.
move: (finite_expand (pad_shape (maxn (size (shape x)) (size (shape y))) (shape x)) s fx).
move: (finite_expand (pad_shape (maxn (size (shape x)) (size (shape y))) (shape y)) s fy).
move: (expand _ _ (data x)) (expand _ _ (data y)).
by elim=> [|[p|] u IH] [|[q|] v] //= fv fu; rewrite Hf IH.
Qed.

Lemma finite_transpose (w wt : tensor) :
  wf w -> finite (data w) -> transpose w = Ok wt ->
  wf wt /\ finite (data wt).
Proof.
rewrite /transpose /wf; case: (shape w) => [|k [|m [|? ?]]] //=.
rewrite muln1 => /eqP sd fd [<-] /=; split.
  rewrite size_flatten /seq.shape -map_comp (@sumn_const _ _ k).
    by move=> j _ /=; rewrite size_map size_iota.
  by rewrite size_iota muln1.
by rewrite /finite all_flatten_all; apply: finite_cols.
Qed.

Lemma finite_matmul (x w y : tensor) :
  wf w -> finite (data x) -> finite (data w) -> matmul x w = Ok y ->
  finite (data y).
Proof.
rewrite /matmul /wf; case: (shape w) => [|k [|m [|? ?]]] //=.
  move=> _ fx fw; case: (rev _) => [|k' lead] //; case: ifP => // _ [<-] /=.
  rewrite /finite all_map; apply/allP => r rin /=; apply: finite_dot => //.
  by move/allP: (finite_reshape (nseq (numel lead) k) fx); apply.
rewrite muln1 => /eqP sd fx fw.
case: (rev _) => [|k' lead] //; case: ifP => // _ [<-] /=.
apply/all_allpairsP => r c rin cin; apply: finite_dot.
  by move/allP: (finite_reshape (nseq (numel lead) k) fx); apply.
by move/allP: (finite_cols sd fw); apply.
Qed.

(** [F.linear] of finite tensors of fitting shapes. *)
Lemma linear_finite (x w b : tensor) lead n_in n_out :
  shape w = [:: n_out; n_in] -> shape b = [:: n_out] ->
  shape x = rcons lead n_in ->
  wf w -> wf b -> finite (data x) -> finite (data w) -> finite (data b) ->
  exists y, [/\ linear x w b = Ok y, shape y = rcons lead n_out, wf y
              & finite (data y)].
Proof.
move=> sw sb sx wfw wfb fx fw fb; rewrite /linear.
pose wt := Make [:: n_in; n_out] (flatten (cols n_out n_in (data w))).
have Et : transpose w = Ok wt by rewrite /transpose sw.
have [wfwt fwt] := finite_transpose wfw fw Et.
have swt : shape wt = [:: n_in; n_out] by [].
rewrite Et /=.
have [y [Ey sy wfy]] := matmul_2d sx swt.
rewrite Ey /=.
have fy := finite_matmul wfwt fx fwt Ey.
have [z [Ez sz wfz]] := add_bias wfy sy wfb sb.
exists z; split=> //.
by apply: (finite_broadcast2 _ fy fb Ez).
Qed.

End FiniteFacts.

(** ** custom-layer.ipynb: [CenteredLayer] behind a linear layer *)

Section CenteredNetwork.

Import Tensor custom_layer_ipynb.

(** X5.  The network [nn.Sequential(nn.Linear(n_in, n_out),
    CenteredLayer())] of the notebook, over exact arithmetic: on every
    batch that is not empty, of finite rows of [n_in] numbers, with a
    finite weight and bias, [net(x)] returns a tensor of the shape of the
    batch with [n_out] in place of [n_in], and [y.mean()] is exactly 0
    (the notebook, in floating point, shows a number close to 0). *)
Theorem centered_network_mean_is_zero
    (w b x : tensor) (lead : seq nat) (n_in n_out : nat) :
  shape w = [:: n_out; n_in] -> shape b = [:: n_out] ->
  shape x = rcons lead n_in ->
  wf w -> wf b ->
  finite (data x) -> finite (data w) -> finite (data b) ->
  (0 < numel lead)%N -> (0 < n_out)%N ->
  (exists y, net w b x = Ok y /\ shape y = rcons lead n_out)
  /\ cell_y_mean w b x = Ok (of_scalar (Fin 0)).
Proof.
move=> sw sb sx wfw wfb fx fw fb l0 o0.
have [h [Eh sh wfh fh]] := linear_finite sw sb sx wfw wfb fx fw fb.
rewrite /cell_y_mean /net Eh /= (CenteredLayer_forward_exact _ wfh) /=.
split; first by eexists; split; [reflexivity | ].
rewrite /Torch.mean /= smean_center //.
rewrite -size_eq0 (eqP wfh) sh -cats1 numel_cat /= muln1.
by rewrite -lt0n muln_gt0 l0.
Qed.

(** The theorem on a layer of 2 inputs and 3 outputs and a batch of two
    rows, all drawn from the sample generator. *)
Lemma centered_network_mean_is_zero_witness :
  cell_y_mean (randn [:: 3; 2] samples).1 (randn [:: 3] samples).1
    (randn [:: 2; 2] samples).1
  = Ok (of_scalar (Fin 0)).
Proof.
have [_ H] :=
  @centered_network_mean_is_zero
    (randn [:: 3; 2] samples).1 (randn [:: 3] samples).1
    (randn [:: 2; 2] samples).1 [:: 2] 2 3
    (erefl _) (erefl _) (erefl _) isT isT isT isT isT isT isT.
exact: H.
Defined.

End CenteredNetwork.

(** ** [module.apply] on a network of layers *)

Section ApplyFacts.

(** A layer: a module without children. *)
Local Notation is_layer := (fun m : module => if m is Sequential _ _ then false else true).

Local Notation visit fn :=
  (fun (acc : py (seq nat)) (m' : module) =>
     seen <-- acc ;;;
     if module_id m' \in seen then ret seen
     else (apply fn m' ;;; ret (module_id m' :: seen))).

Lemma foldl_visit (fn : module -> py unit) (acc : py (seq nat)) ms st :
  foldl (visit fn) acc ms st
  = match acc st with
    | Ok (seen, st') => foldl (visit fn) (ret seen) ms st'
    | Err e => Err e
    end.
Proof.
move=> /=; elim: ms acc st => [|m ms IH] acc st /=.
  by case: (acc st) => [[seen st']|e].
by rewrite IH /pbind; case: (acc st) => [[seen st']|e].
Qed.

(** The calls [fn(m)] for the modules of a list, in order. *)
Local Notation calls_of fn ms :=
  (foldr (fun (m : module) (k : py unit) => fn m ;;; k) (ret tt) ms).

Lemma apply_children (fn : module -> py unit) seen ms st :
  all is_layer ms -> uniq [seq module_id m | m <- ms] ->
  all (fun m => module_id m \notin seen) ms ->
  foldl (visit fn) (ret seen) ms st
  = match calls_of fn ms st with
    | Ok (_, st') => Ok (rev [seq module_id m | m <- ms] ++ seen, st')
    | Err e => Err e
    end.
Proof.
move=> /=; elim: ms seen st => [|m ms IH] seen st //=.
move=> /andP [lm lms] /andP [nm ums] /andP [sm sms].
rewrite foldl_visit /pbind /= (negbTE sm) /pbind.
have -> : apply fn m = fn m by case: (m) lm.
case: (fn m st) => [[[] st']|e] //=.
have sms' : all (fun m' => module_id m' \notin module_id m :: seen) ms.
  elim: (ms) nm sms => [|m' ms' IH'] //=.
  rewrite !inE !negb_or => /andP [ne nm'] /andP [s' sms'].
  by rewrite eq_sym ne s' /=; apply: IH'.
rewrite (IH _ _ lms ums sms').
case: (calls_of fn ms st') => [[[] st'']|e] //.
by rewrite rev_cons cat_rcons.
Qed.

(** [apply] on a [Sequential] of distinct layers: [fn] on each layer in
    order, then on the [Sequential] itself. *)
Lemma apply_layers (fn : module -> py unit) i ms st :
  all is_layer ms -> uniq [seq module_id m | m <- ms] ->
  apply fn (Sequential i ms) st
  = (calls_of fn ms ;;; fn (Sequential i ms)) st.
Proof.
move=> lms ums.
have sms : all (fun m => module_id m \notin [::]) ms by elim: (ms).
rewrite /= /pbind (apply_children _ _ lms ums sms) /pbind.
by case: (foldr _ _ _ _) => [[[] st']|e].
Qed.

End ApplyFacts.

(** ** parameters.ipynb: the other initialisers *)

Section InitFacts.

Import Tensor parameters_ipynb parameters_init.

Local Arguments sadd : simpl never.
Local Arguments smul : simpl never.

(** A tensor of the shape of [t] with every element [c]. *)
Local Notation filled t c := (Make (shape t) (nseq (size (data t)) (Fin c))).

Local Notation net3 i i0 w0 b0 i1 i2 w2 b2 :=
  (Sequential i [:: Linear i0 w0 b0; ReLU i1; Linear i2 w2 b2]).

(** One call of the second [init_normal] on a [Linear] module, whichever
    it is, in a state where [net[0]] has weight [w0] and bias [b0]. *)
Lemma constant_init_normal_Linear (st : pystate) (m : module) i i0 (w0 b0 : ref) rest :
  is_Linear m ->
  g_net (vars st) = Some (Sequential i (Linear i0 w0 b0 :: rest)) ->
  w0 != b0 ->
  exists st' : pystate,
    [/\ constant.init_normal m st = Ok (tt, st'),
        [/\ vars st' = vars st, next_id st' = next_id st,
            stdout st' = stdout st & rng st' = rng st],
        forall r, r != w0 -> r != b0 ->
          nth no_tensor (heap st') r = nth no_tensor (heap st) r,
        nth no_tensor (heap st') w0 = filled (nth no_tensor (heap st) w0) 1
      & nth no_tensor (heap st') b0 = filled (nth no_tensor (heap st) b0) 0].
Proof.
case: m => // im wm bm _; case: st => h n g [nt sh x y] o /= -> d.
exists (PyState (set_nth no_tensor
                   (set_nth no_tensor h w0 (filled (nth no_tensor h w0) 1))
                   b0 (filled (nth no_tensor h b0) 0))
          n g (Globals (Some (Sequential i (Linear i0 w0 b0 :: rest))) sh x y) o).
split=> //=.
- rewrite /constant.init_normal /= /pbind /= /nn_init_zeros_ /pbind /= !nth_set_nth /=.
  by rewrite eq_sym (negbTE d).
- by move=> r rw rb; rewrite nth_set_nth /= (negbTE rb) nth_set_nth /= (negbTE rw).
- by rewrite nth_set_nth /= (negbTE d) nth_set_nth /= eqxx.
- by rewrite nth_set_nth /= eqxx.
Qed.

Lemma constant_init_normal_other (st : pystate) (m : module) :
  ~~ is_Linear m -> constant.init_normal m st = Ok (tt, st).
Proof. by case: m. Qed.

Local Arguments constant.init_normal : simpl never.

(** X6.  The cell that defines [init_normal] a second time, with
    [nn.init.constant_(net[0].weight, 1)], and applies it to the network
    of the first cell.  The call returns; the weight of [net[0]] is 1
    everywhere and its bias 0, both of the shape they had; every other
    tensor, the parameters of [net[2]] among them, is as it was; the
    random generator is not used; and applying it a second time changes
    no tensor. *)
Theorem constant_init_writes_net0_only
    (st : pystate) (i i0 i1 i2 : nat) (w0 b0 w2 b2 : ref) :
  g_net (vars st) = Some (net3 i i0 w0 b0 i1 i2 w2 b2) ->
  uniq [:: i0; i1; i2] -> w0 != b0 ->
  exists st' : pystate,
    [/\ constant.apply_init_normal st = Ok (tt, st'),
        nth no_tensor (heap st') w0 = filled (nth no_tensor (heap st) w0) 1
        /\ nth no_tensor (heap st') b0 = filled (nth no_tensor (heap st) b0) 0,
        forall r, r != w0 -> r != b0 ->
          nth no_tensor (heap st') r = nth no_tensor (heap st) r,
        rng st' = rng st /\ vars st' = vars st
      & exists st'' : pystate,
          constant.apply_init_normal st' = Ok (tt, st'')
          /\ forall r, nth no_tensor (heap st'') r = nth no_tensor (heap st') r].
Proof.
move=> Hnet uids dwb.
have run (s : pystate) :
    g_net (vars s) = Some (net3 i i0 w0 b0 i1 i2 w2 b2) ->
    exists s' : pystate,
      [/\ constant.apply_init_normal s = Ok (tt, s'),
          nth no_tensor (heap s') w0 = filled (nth no_tensor (heap s) w0) 1
          /\ nth no_tensor (heap s') b0 = filled (nth no_tensor (heap s) b0) 0,
          forall r, r != w0 -> r != b0 ->
            nth no_tensor (heap s') r = nth no_tensor (heap s) r
        & rng s' = rng s /\ vars s' = vars s].
  move=> Hs.
  have [s1 [E1 [V1 N1 O1 R1] F1 W1 Z1]] :=
    constant_init_normal_Linear (m := Linear i0 w0 b0) isT Hs dwb.
  have Hs1 : g_net (vars s1) = Some (net3 i i0 w0 b0 i1 i2 w2 b2) by rewrite V1.
  have [s2 [E2 [V2 N2 O2 R2] F2 W2 Z2]] :=
    constant_init_normal_Linear (m := Linear i2 w2 b2) isT Hs1 dwb.
  exists s2; split.
  - rewrite /constant.apply_init_normal /get_net /lookup /pbind Hs.
    rewrite apply_layers // /pbind /= E1 E2 /=.
    by rewrite constant_init_normal_other.
  - by rewrite W2 Z2 W1 Z1 /= !size_nseq.
  - by move=> r rw rb; rewrite F2 ?F1.
  - by rewrite R2 R1 V2 V1.
have [st1 [E1 [W1 Z1] F1 [R1 V1]]] := run st Hnet.
have Hnet1 : g_net (vars st1) = Some (net3 i i0 w0 b0 i1 i2 w2 b2) by rewrite V1.
have [st2 [E2 [W2 Z2] F2 _]] := run st1 Hnet1.
exists st1; split=> //.
exists st2; split=> // r.
have [->|rw] := eqVneq r w0; first by rewrite W2 W1 /= size_nseq.
have [->|rb] := eqVneq r b0; first by rewrite Z2 Z1 /= size_nseq.
exact: F2.
Qed.

(** The theorem in the state the first cell leaves behind. *)
Lemma constant_init_writes_net0_only_witness :
  exists st' : pystate,
    [/\ constant.apply_init_normal (after cell_net (initial samples)) = Ok (tt, st'),
        nth no_tensor (heap st') 0
        = Make [:: 8; 4] (nseq 32 (Fin 1))
      & nth no_tensor (heap st') 2
        = nth no_tensor (heap (after cell_net (initial samples))) 2].
Proof.
have H : g_net (vars (after cell_net (initial samples)))
    = Some (Sequential 3 [:: Linear 0 0 1; ReLU 1; Linear 2 2 3]).
  vm_compute; reflexivity.
case: (@constant_init_writes_net0_only _ 3 0 1 2 0 1 2 3 H isT isT).
move=> st' [E [W _] F _ _].
exists st'; split; [exact: E | | exact: F].
rewrite W; vm_compute; reflexivity.
Defined.

(** X7.  [init_42] is written with [m.weight], so [net[2].apply(init_42)]
    changes the layer it is applied to and no other: where [net[2]] is a
    [Linear], its weight becomes 42 everywhere, keeping its shape, and
    the state is otherwise untouched (bias, other layers, generator);
    where [net[2]] is a [ReLU], nothing changes at all; where [net] has
    fewer than three children, the statement raises [IndexError]. *)
Theorem init_42_writes_only_the_module_given
    (st : pystate) (i : nat) (ms : seq module) :
  g_net (vars st) = Some (Sequential i ms) ->
  [/\ forall i2 w2 b2, (2 < size ms)%N -> nth (ReLU 0) ms 2 = Linear i2 w2 b2 ->
        apply_init_42 st
        = Ok (tt, PyState (set_nth no_tensor (heap st) w2
                             (filled (nth no_tensor (heap st) w2) 42%:Q))
                    (next_id st) (rng st) (vars st) (stdout st)),
      forall j, (2 < size ms)%N -> nth (ReLU 0) ms 2 = ReLU j ->
        apply_init_42 st = Ok (tt, st)
    & (size ms <= 2)%N -> apply_init_42 st = Err IndexError_py].
Proof.
case: st => h n g [nt sh x y] o /= ->; split.
- move=> i2 w2 b2 lt E.
  by rewrite /apply_init_42 /get_net /lookup /pbind /= lt /= /ret E.
- move=> j lt E.
  by rewrite /apply_init_42 /get_net /lookup /pbind /= lt /= /ret E.
- move=> le.
  by rewrite /apply_init_42 /get_net /lookup /pbind /= ltnNge le.
Qed.

(** The theorem in the state the first cell leaves behind: the weight of
    [net[2]] is object 2, of shape (1, 8). *)
Lemma init_42_writes_only_the_module_given_witness :
  apply_init_42 (after cell_net (initial samples))
  = Ok (tt, PyState
              (set_nth no_tensor (heap (after cell_net (initial samples))) 2
                 (Make [:: 1; 8] (nseq 8 (Fin 42%:Q))))
              4 (rng (after cell_net (initial samples)))
              (vars (after cell_net (initial samples)))
              (stdout (after cell_net (initial samples)))).
Proof.
have H : g_net (vars (after cell_net (initial samples)))
    = Some (Sequential 3 [:: Linear 0 0 1; ReLU 1; Linear 2 2 3]).
  vm_compute; reflexivity.
have [H1 _ _] := init_42_writes_only_the_module_given H.
exact: (H1 2 2 3 isT (erefl _)).
Defined.

(** What [my_init] leaves in place of a sample [u]: the value drawn,
    [-10 + 20 u], where its absolute value is at least 5, else 0. *)
Local Notation uniform_10 u :=
  (sadd (Fin (- 10%:Q)) (smul (Fin (10%:Q - - 10%:Q)) u)).
Local Notation masked v := (smul v (abs_ge 5%:Q v)).

Local Notation zero_or_large :=
  (fun v : scalar => if v is Some q then (q == 0) || (5%:Q <= `|q|) else false).
Local Notation within_10 :=
  (fun v : scalar => if v is Some q then `|q| <= 10%:Q else false).

Lemma masked_zero_or_large (a c t s : rat) :
  let v := sadd (Fin a) (smul (Fin c) (Fin s)) in
  if smul v (abs_ge t v) is Some q then (q == 0) || (t <= `|q|) else false.
Proof.
rewrite /sadd /smul /abs_ge /=.
by case E: (_ <= _); rewrite ?mulr1 ?E ?orbT // mulr0 eqxx.
Qed.

Lemma uniform_range (a b s : rat) :
  a <= b -> 0 <= s <= 1 -> a <= a + (b - a) * s <= b.
Proof.
move=> ab /andP [s0 s1]; have ba : 0 <= b - a by rewrite subr_ge0.
rewrite lerDl mulr_ge0 //=.
have {2}-> : b = a + (b - a) * 1 by rewrite mulr1 addrC subrK.
by rewrite lerD2l ler_wpM2l.
Qed.

Lemma masked_within (a b t s : rat) :
  - b <= a -> a <= b -> 0 <= s <= 1 ->
  let v := sadd (Fin a) (smul (Fin (b - a)) (Fin s)) in
  if smul v (abs_ge t v) is Some q then `|q| <= b else false.
Proof.
move=> ba ab s01; rewrite /sadd /smul /abs_ge /=.
have /andP [lo hi] := uniform_range ab s01.
have nb : `|a + (b - a) * s| <= b.
  by rewrite ler_norml hi (Order.POrderTheory.le_trans ba lo).
case: (_ <= `|_|); last first.
  by rewrite mulr0 normr0 (Order.POrderTheory.le_trans (normr_ge0 _) nb).
by rewrite mulr1.
Qed.

Lemma all_draw (g : generator) k (Q : pred rat) (P : pred scalar) :
  (forall j, Q (stream g j)) -> (forall s, Q s -> P (Fin s)) ->
  all P (draw g k).
Proof.
by move=> HQ HP; rewrite /draw all_map; apply/allP => j _ /=; apply: HP.
Qed.

(** One call of [my_init] on a [Linear] module. *)
Lemma my_init_Linear (st : pystate) i (w b : ref) :
  let t := nth no_tensor (heap st) w in
  let k := size (data t) in
  exists st' : pystate,
    [/\ my_init (Linear i w b) st = Ok (tt, st'),
        [/\ vars st' = vars st, next_id st' = next_id st,
            stdout st' = stdout st & rng st' = advance (rng st) k],
        forall r, r != w ->
          nth no_tensor (heap st') r = nth no_tensor (heap st) r
      & nth no_tensor (heap st') w
        = Make (shape t) [seq masked (uniform_10 u) | u <- draw (rng st) k]].
Proof.
case: st => h n g v o /=.
set t := nth no_tensor h w; set k := size (data t).
set U := Make (shape t) [seq uniform_10 u | u <- draw g k].
exists (PyState (set_nth no_tensor (set_nth no_tensor h w U) w
                   (Make (shape t) [seq masked (uniform_10 u) | u <- draw g k]))
          n (advance g k) v o).
split=> //=.
- rewrite /my_init /= /pbind /= nth_set_nth /= eqxx /= /write -map_comp.
  reflexivity.
- by move=> r rw; rewrite nth_set_nth /= (negbTE rw) nth_set_nth /= (negbTE rw).
- by rewrite nth_set_nth /= eqxx.
Qed.

Lemma my_init_other (st : pystate) (m : module) :
  ~~ is_Linear m -> my_init m st = Ok (tt, st).
Proof. by case: m. Qed.

Local Arguments my_init : simpl never.

(** X8.  [net.apply(my_init)] on the network of the first cell, whatever
    the generator holds: the call returns; every element of the weight
    of [net[0]] and of [net[2]] is afterwards a finite number that is
    either 0 or of absolute value at least 5, the weights keeping their
    shapes; no other tensor changes, so the biases are not initialised;
    the generator is advanced by one sample per weight element.  Where
    the generator yields samples between 0 and 1, as the library's does,
    no element exceeds 10 in absolute value. *)
Theorem my_init_zero_or_large
    (st : pystate) (i i0 i1 i2 : nat) (w0 b0 w2 b2 : ref) :
  g_net (vars st) = Some (net3 i i0 w0 b0 i1 i2 w2 b2) ->
  uniq [:: i0; i1; i2] -> w0 != w2 ->
  let t0 := nth no_tensor (heap st) w0 in
  let t2 := nth no_tensor (heap st) w2 in
  exists st' : pystate,
    [/\ apply_my_init st = Ok (tt, st'),
        forall w, w \in [:: w0; w2] ->
          [/\ shape (nth no_tensor (heap st') w) = shape (nth no_tensor (heap st) w),
              size (data (nth no_tensor (heap st') w))
              = size (data (nth no_tensor (heap st) w))
            & all zero_or_large (data (nth no_tensor (heap st') w))],
        forall r, r != w0 -> r != w2 ->
          nth no_tensor (heap st') r = nth no_tensor (heap st) r,
        rng st' = advance (rng st) (size (data t0) + size (data t2))
      & (forall j, 0 <= stream (rng st) j <= 1) ->
        forall w, w \in [:: w0; w2] ->
          all within_10 (data (nth no_tensor (heap st') w))].
Proof.
move=> Hnet uids d02 t0 t2.
have neg10_le10 : - 10%:Q <= 10%:Q :> rat by rewrite ge0_cp // ler0z.
have [st1 [E1 [V1 N1 O1 R1] F1 W1]] := my_init_Linear st i0 w0 b0.
have [st2 [E2 [V2 N2 O2 R2] F2 W2]] := my_init_Linear st1 i2 w2 b2.
have d20 : w2 != w0 by rewrite eq_sym.
have T2 : nth no_tensor (heap st1) w2 = t2 := F1 _ d20.
have T0 : nth no_tensor (heap st2) w0 = nth no_tensor (heap st1) w0 by rewrite F2.
exists st2; split.
- rewrite /apply_my_init /get_net /lookup /pbind Hnet.
  have L : all (fun m : module => if m is Sequential _ _ then false else true)
             [:: Linear i0 w0 b0; ReLU i1; Linear i2 w2 b2] by [].
  rewrite (apply_layers _ _ _ L uids); cbv [foldr pbind].
  by rewrite E1; cbv beta iota; rewrite (@my_init_other _ (ReLU i1)).
- move=> w; rewrite !inE => /orP [] /eqP ->.
    rewrite T0 W1 /= size_map size_draw; split; [reflexivity | reflexivity | ].
    rewrite all_map; apply: (@all_draw _ _ predT); first by [].
    by move=> s _; exact: (masked_zero_or_large (- 10%:Q) (10%:Q - - 10%:Q) 5%:Q s).
  rewrite W2 T2 /= size_map size_draw; split; [reflexivity | reflexivity | ].
  rewrite all_map; apply: (@all_draw _ _ predT); first by [].
  by move=> s _; exact: (masked_zero_or_large (- 10%:Q) (10%:Q - - 10%:Q) 5%:Q s).
- by move=> r r0 r2; rewrite F2 ?F1.
- by rewrite R2 R1 T2 advance_advance.
- move=> Hg w; rewrite !inE => /orP [] /eqP ->.
    rewrite T0 W1 /= all_map.
    apply: (@all_draw _ _ (fun s => 0 <= s <= 1)); first exact: Hg.
    move=> s s01.
    exact: (@masked_within (- 10%:Q) 10%:Q 5%:Q s (Order.POrderTheory.lexx _) neg10_le10 s01).
  rewrite W2 /= all_map.
  apply: (@all_draw _ _ (fun s => 0 <= s <= 1)).
    by move=> j; rewrite R1; exact: Hg.
  move=> s s01.
  exact: (@masked_within (- 10%:Q) 10%:Q 5%:Q s (Order.POrderTheory.lexx _) neg10_le10 s01).
Qed.

(** The theorem in the state the first cell leaves behind. *)
Lemma my_init_zero_or_large_witness :
  exists st' : pystate,
    apply_my_init (after cell_net (initial samples)) = Ok (tt, st')
    /\ all zero_or_large (data (nth no_tensor (heap st') 0)).
Proof.
have H : g_net (vars (after cell_net (initial samples)))
    = Some (Sequential 3 [:: Linear 0 0 1; ReLU 1; Linear 2 2 3]).
  vm_compute; reflexivity.
case: (@my_init_zero_or_large _ 3 0 1 2 0 1 2 3 H isT isT).
move=> st' [E P _ _ _].
have [_ _ A] := P 0%N isT.
exists st'; split; assumption.
Defined.

(** X9.  The cell that writes into [net[0].weight.data] directly: the
    statement [net[0].weight.data[:] += 1] adds 1 to every element of
    the weight in place, [net[0].weight.data[0, 0] = 42] then replaces
    the first element, and the cell displays the first row: 42 followed
    by the old values plus 1.  The weight stays the same object, and
    nothing else in the state changes. *)
Theorem cell_direct_writes_in_place
    (st : pystate) (i i0 : nat) (w0 b0 : ref) (rest : seq module) (n m : nat) :
  g_net (vars st) = Some (Sequential i (Linear i0 w0 b0 :: rest)) ->
  shape (nth no_tensor (heap st) w0) = [:: n; m] ->
  (0 < n)%N -> (0 < m)%N ->
  let d' := Fin 42%:Q
            :: behead [seq sadd v (Fin 1) | v <- data (nth no_tensor (heap st) w0)] in
  cell_direct st
  = Ok (Make [:: m] (take m d'),
        PyState (set_nth no_tensor (heap st) w0 (Make [:: n; m] d'))
          (next_id st) (rng st) (vars st) (stdout st)).
Proof.
case: st => h nx g [nt sh x y] o /= -> sw n0 m0.
rewrite /cell_direct /weight_ref /weight_of /get_net /lookup /pbind /=.
rewrite /setitem2 /pbind /= nth_set_nth /= eqxx /= sw n0 m0 /=.
rewrite nth_set_nth /= eqxx /row /= n0 /ret !muln1 !mul0n !add0n take0 drop0 drop1 /=.
by rewrite set_set_nth eqxx.
Qed.

(** The theorem in the state the first cell leaves behind, where the
    weight of [net[0]] has 8 rows of 4 elements. *)
Lemma cell_direct_writes_in_place_witness :
  exists row0 st',
    cell_direct (after cell_net (initial samples)) = Ok (row0, st')
    /\ nth NaN (data row0) 0 = Fin 42%:Q.
Proof.
have H : g_net (vars (after cell_net (initial samples)))
    = Some (Sequential 3 [:: Linear 0 0 1; ReLU 1; Linear 2 2 3]).
  vm_compute; reflexivity.
have E := @cell_direct_writes_in_place _ 3 0 0 1 _ 8 4 H (erefl _) isT isT.
by eexists; eexists; split; [exact: E | ].
Defined.

End InitFacts.

(** ** custom-layer.ipynb: a network of [MyLinear] layers *)

Section MyLinearNetwork.

Import Tensor custom_layer_ipynb.

Lemma wf_relu (x : tensor) : wf x -> wf (Torch.relu x).
Proof. by rewrite /wf /= size_map. Qed.

(** X10.  The network [nn.Sequential(MyLinear(64, 8), nn.ReLU(),
    MyLinear(8, 1))], whatever the generator holds.  [net(x)] returns
    only if [x] has at least one dimension and its last dimension is
    64.  An error can only come from the first layer: whenever the first
    layer returns, [net(x)] returns, and the result has the shape of [x]
    with 1 in place of 64.  Building the network takes 64 * 8 + 8 + 8 +
    1 samples from the generator; the cell's input, of shape (2, 64), is
    drawn after them, and the cell returns a tensor of shape (2, 1). *)
Theorem MyLinear_network_fails_in_first_layer_only (g : generator) (x : tensor) :
  let net := (net_MyLinear g).1 in
  let l0 := (MyLinear.__init__ 64 8 g).1 in
  [/\ is_ok (net x) -> (shape x != [::]) && (last 0%N (shape x) == 64%N),
      forall h, MyLinear.forward l0 x = Ok h ->
        exists lead y,
          [/\ shape x = rcons lead 64%N, net x = Ok y,
              shape y = rcons lead 1%N & wf y],
      (net_MyLinear g).2 = advance g (64 * 8 + 8 + 8 + 1)
    & exists y, [/\ (cell_net_MyLinear g).1 = Ok y, shape y = [:: 2; 1]%N & wf y]].
Proof.
pose l0 := (MyLinear.__init__ 64 8 g).1.
pose g0 := (MyLinear.__init__ 64 8 g).2.
pose l2 := (MyLinear.__init__ 8 1 g0).1.
have run lead (z : tensor) : shape z = rcons lead 64%N ->
    exists y, [/\ (h <- MyLinear.forward l0 z ;;
                   MyLinear.forward l2 (Torch.relu h))%py = Ok y,
                  shape y = rcons lead 1%N & wf y].
  move=> sz; rewrite /MyLinear.forward.
  have [h [Eh sh wfh]] :=
    @matmul_2d z (p_data (MyLinear.weight l0)) _ _ 8 sz (erefl _).
  have [h' [Eh' sh' wfh']] :=
    @add_bias h (p_data (MyLinear.bias l0)) _ 8 wfh sh (wf_randn _ _) (erefl _).
  rewrite [lib_matmul _ _]Eh /= [Torch.add _ _]Eh' /=.
  have sr : shape (Torch.relu h') = rcons lead 8 by [].
  have [k [Ek sk wfk]] :=
    @matmul_2d (Torch.relu h') (p_data (MyLinear.weight l2)) _ _ 1 sr (erefl _).
  have [k' [Ek' sk' wfk']] :=
    @add_bias k (p_data (MyLinear.bias l2)) _ 1 wfk sk (wf_randn _ _) (erefl _).
  rewrite [Torch.matmul _ _]Ek /= [Torch.add _ _]Ek' /=.
  by exists k'.
have sw : shape (p_data (MyLinear.weight l0)) = [:: 64; 8]%N by reflexivity.
have sb : shape (p_data (MyLinear.bias l0)) = [:: 8]%N by reflexivity.
have wfb : wf (p_data (MyLinear.bias l0)) by exact: wf_randn.
have netE z : (net_MyLinear g).1 z
              = (h <- MyLinear.forward l0 z ;;
                 MyLinear.forward l2 (Torch.relu h))%py by reflexivity.
move=> net l0'; split.
- rewrite /net netE.
  case E: (MyLinear.forward l0 x) => [h|e] // _.
  have [lead [-> _ _]] := MyLinear_forward_inv sw sb wfb E.
  by rewrite last_rcons eqxx andbT; case: (lead).
- move=> h E; have [lead [sx _ _]] := MyLinear_forward_inv sw sb wfb E.
  have [y [Ey sy wfy]] := run _ _ sx.
  by exists lead, y; rewrite /net netE.
- by rewrite /net_MyLinear /= !advance_advance.
- have -> : (cell_net_MyLinear g).1
            = net (randn [:: 2; 64]%N (net_MyLinear g).2).1 by reflexivity.
  rewrite /net netE.
  exact: (run [:: 2]%N (randn [:: 2; 64]%N (net_MyLinear g).2).1 (erefl _)).
Qed.

(** The theorem on a batch of one row of 64 samples. *)
Lemma MyLinear_network_fails_in_first_layer_only_witness :
  exists y : tensor,
    (net_MyLinear samples).1 (randn [:: 1; 64]%N samples).1 = Ok y
    /\ shape y = [:: 1; 1]%N.
Proof.
have [_ H _ _] :=
  MyLinear_network_fails_in_first_layer_only samples (randn [:: 1; 64]%N samples).1.
have [h Eh] : exists h, MyLinear.forward (MyLinear.__init__ 64 8 samples).1
                          (randn [:: 1; 64]%N samples).1 = Ok h.
  by eexists; vm_compute; reflexivity.
have [lead [y [sx Ey sy _]]] := H h Eh.
exists y; split; first exact: Ey.
have El : lead = [:: 1]%N.
  have : rcons lead 64%N = [:: 1; 64]%N by rewrite -sx.
  by case: (lead) => [|a [|b [|c l]]] //= [->].
by rewrite sy El.
Defined.

End MyLinearNetwork.

(** ** The ndarray notebook: [x += y] *)

Section InPlace.

Import Tensor ndarray_ipynb ndarray_inplace.



End InPlace.

(** ** The linear-regression notebook: the initial parameters *)

Section UniformInit.

Import Tensor linear_regression_init.

Local Arguments sadd : simpl never.
Local Arguments smul : simpl never.

Lemma uniform_range_lt (a b s : rat) :
  a < b -> 0 <= s < 1 -> a <= a + (b - a) * s < b.
Proof.
move=> ab /andP [s0 s1]; have ba : 0 < b - a by rewrite subr_gt0.
rewrite lerDl mulr_ge0 ?(Order.POrderTheory.ltW ba) //=.
have E : a + (b - a) * 1 = b by rewrite mulr1 addrC subrK.
by rewrite -[X in _ < X]E ltrD2l ltr_pM2l.
Qed.

Lemma uniform_in_range (a b s : rat) :
  a < b -> 0 <= s < 1 ->
  if sadd (Fin a) (smul (Fin (b - a)) (Fin s)) is Some q then a <= q < b
  else false.
Proof. by move=> ab s01; rewrite /sadd /smul /=; apply: uniform_range_lt. Qed.

(** X12.  The cell [net[0].weight.data.uniform_(0.0, 0.01);
    net[0].bias.data.fill_(0)] on a network whose first child is a
    [Linear]: both statements run; the weight keeps its shape and is
    redrawn, one sample of the generator per element; the bias keeps its
    shape and is 0 everywhere; no other tensor and no binding changes.
    Where the generator yields samples from 0 up to, not including, 1,
    as the library's does, every weight is, over exact arithmetic, at
    least 0 and less than 0.01. *)
Theorem cell_init_weights_small
    (st : pystate) (i i0 : nat) (w0 b0 : ref) (rest : seq module) :
  g_net (vars st) = Some (Sequential i (Linear i0 w0 b0 :: rest)) ->
  w0 != b0 ->
  let tw := nth no_tensor (heap st) w0 in
  let tb := nth no_tensor (heap st) b0 in
  exists st' : pystate,
    [/\ exec cell_init st = Ok st',
        nth no_tensor (heap st') w0
        = Make (shape tw)
            [seq sadd (Fin 0) (smul (Fin (1 / 100%:Q - 0)) u)
               | u <- draw (rng st) (size (data tw))]
        /\ nth no_tensor (heap st') b0 = Make (shape tb) (nseq (size (data tb)) (Fin 0)),
        forall r, r != w0 -> r != b0 ->
          nth no_tensor (heap st') r = nth no_tensor (heap st) r,
        rng st' = advance (rng st) (size (data tw)) /\ vars st' = vars st
      & (forall j, 0 <= stream (rng st) j < 1) ->
        all (fun v : scalar => if v is Some q then 0 <= q < 1 / 100%:Q else false)
          (data (nth no_tensor (heap st') w0))].
Proof.
case: st => h n g [nt sh x y] o /= -> d.
set tw := nth no_tensor h w0; set tb := nth no_tensor h b0.
set W := Make (shape tw) _.
exists (PyState (set_nth no_tensor (set_nth no_tensor h w0 W) b0
                   (Make (shape tb) (nseq (size (data tb)) (Fin 0))))
          n (advance g (size (data tw)))
          (Globals (Some (Sequential i (Linear i0 w0 b0 :: rest))) sh x y) o).
split.
- rewrite /cell_init /exec /get_net /lookup /pbind /= /uniform_ /fill_.
  rewrite /parameters_init.nn_init_uniform_ /parameters_init.nn_init_constant_.
  by rewrite /pbind /= nth_set_nth /= eq_sym (negbTE d).
- rewrite [heap _]/=; split; last by rewrite nth_set_nth /= eqxx.
  by rewrite nth_set_nth /= (negbTE d) nth_set_nth /= eqxx.
- move=> r rw rb.
  by rewrite [heap _]/= nth_set_nth /= (negbTE rb) nth_set_nth /= (negbTE rw).
- by [].
- move=> Hg; rewrite [heap _]/= nth_set_nth /= (negbTE d) nth_set_nth /= eqxx.
  rewrite [data W]/= all_map.
  apply: (@all_draw _ _ (fun s => 0 <= s < 1)); first exact: Hg.
  move=> s s01.
  have lt : (0 : rat) < 1 / 100%:Q by rewrite divr_gt0 // ltr0z.
  exact: (uniform_in_range lt s01).
Qed.

(** The theorem after the cell that builds the notebook's network, a
    single [nn.Linear(2, 1)]. *)
Lemma cell_init_weights_small_witness :
  exists st' : pystate,
    exec cell_init (after cell_net (initial samples)) = Ok st'
    /\ nth no_tensor (heap st') 1%N = Make [:: 1%N] [:: Fin 0].
Proof.
have H : g_net (vars (after cell_net (initial samples)))
    = Some (Sequential 1 [:: Linear 0 0 1]).
  vm_compute; reflexivity.
case: (@cell_init_weights_small _ 1 0 0 1 [::] H isT).
move=> st' [E [_ B] _ _ _].
exists st'; split; first exact: E.
rewrite B; vm_compute; reflexivity.
Defined.

End UniformInit.

(** ** The shape of [net(x)] depends on shapes alone *)

Section ForwardShapeFacts.

Import Tensor.

Lemma nth_shape (h : seq tensor) r :
  nth [::] [seq shape t | t <- h] r = shape (nth no_tensor h r).
Proof. by elim: h r => [|t h IH] [|r] //=. Qed.

Lemma linear_shape (x w b : tensor) :
  map_result id shape (Torch.linear x w b)
  = ForwardShape.linear (shape x) (shape w) (shape b).
Proof.
have [_ _ Ha Hm] := shape_morphism.
rewrite /Torch.linear /ForwardShape.linear /Torch.transpose /ForwardShape.transpose.
case: (shape w) => [|k [|m [|? ?]]] //.
set wt := Make [:: m; k] _.
have Hm' : map_result id shape (Torch.matmul x wt)
           = TorchShape.matmul (shape x) [:: m; k] := Hm x wt.
have Ha' y : map_result id shape (Torch.add y b)
             = TorchShape.broadcast (shape y) (shape b) := Ha y b.
rewrite /bind -Hm'; case: (Torch.matmul x wt) => [y|e] //=.
Qed.

(** Whether [net(x)] returns, and the shape of what it returns, are
    determined by the shapes of the parameters and of [x]. *)
Lemma forward_shape (h : seq tensor) (m : module) (x : tensor) :
  map_result id shape (forward h m x)
  = ForwardShape.forward [seq shape t | t <- h] m (shape x).
Proof.
move: m x; fix IH 1 => m x; case: m => [i w b|i|i ms] /=.
- by rewrite linear_shape !nth_shape.
- by [].
- have: map_result id shape (Ok x : Torch.res tensor) = Ok (shape x) by [].
  move: (Ok x) (Ok (shape x)); move: ms; fix IHms 1 => ms.
  case: ms => [|m ms] r rs E //=.
  by apply: IHms; case: r E => [y|e] /= <-.
Qed.

End ForwardShapeFacts.

(** ** parameters.ipynb: nested blocks *)

Section BlockFacts.

Import Tensor parameters_blocks.

Lemma nn_Linear_run n_in n_out (st : pystate) :
  nn_Linear n_in n_out st
  = Ok (Linear (next_id st) (size (heap st)) (size (heap st)).+1,
        PyState (heap st ++ Linear_tensors n_in n_out (rng st)) (next_id st).+1
          (advance (rng st) (n_out * n_in + n_out)) (vars st) (stdout st)).
Proof.
case: st => h n g v o.
rewrite /nn_Linear /pbind /= size_rcons -!cats1 -catA advance_advance.
reflexivity.
Qed.

Lemma block1_run (st : pystate) :
  block1 st
  = Ok (block1_module (next_id st) (size (heap st)),
        PyState (heap st ++ block1_tensors (rng st)) (next_id st).+4.+1
          (advance (rng st) 76) (vars st) (stdout st)).
Proof.
case: st => h n g v o.
rewrite /block1 /pbind (nn_Linear_run _ _ (PyState _ _ _ _ _)) /=.
rewrite size_rcons size_cat /= addn2 -!cats1 -!catA /nn_Sequential /pbind /=.
congr (Ok (_, PyState _ _ _ _ _)).
by rewrite !advance_advance.
Qed.

Ltac run_block1 :=
  rewrite (block1_run (PyState _ _ _ _ _));
  cbv beta iota delta [heap next_id rng vars stdout add_module rcons ret].

Lemma block2_run (st : pystate) :
  block2 st
  = Ok (block2_module (next_id st) (size (heap st)),
        PyState (heap st ++ block2_tensors (rng st)) (21 + next_id st)
          (advance (rng st) 304) (vars st) (stdout st)).
Proof.
case: st => h n g v o.
cbv beta iota delta [block2 foldl iota pbind nn_Sequential fresh_id ret
                     heap next_id rng vars stdout].
do 4!run_block1.
set T0 := block1_tensors g.
set T1 := block1_tensors (advance g 76).
set T2 := block1_tensors (advance (advance g 76) 76).
set T3 := block1_tensors (advance (advance (advance g 76) 76) 76).
rewrite !size_cat [size (Linear_tensors _ _ _)]/= !addnA !addn2 -!catA.
congr (Ok (_, PyState _ _ _ _ _)).
by rewrite !advance_advance.
Qed.

Lemma rgnet_built (A : Type) (k : module -> py A) (st : pystate) :
  (b <-- block2 ;;; l <-- nn_Linear 4 1 ;;;
   rgnet <-- nn_Sequential [:: b; l] ;;; k rgnet) st
  = k (rgnet_module (next_id st) (size (heap st)))
      (PyState (heap st ++ rgnet_tensors (rng st)) (23 + next_id st)
         (advance (rng st) 309) (vars st) (stdout st)).
Proof.
case: st => h n g v o.
rewrite /pbind (block2_run (PyState _ _ _ _ _)).
cbv beta iota delta [heap next_id rng vars stdout].
rewrite (nn_Linear_run _ _ (PyState _ _ _ _ _)).
cbv beta iota delta [heap next_id rng vars stdout nn_Sequential fresh_id pbind ret].
have s2 : size (block2_tensors g) = 16%N by [].
rewrite size_cat s2 -catA [(size h + 16)%N]addnC advance_advance.
reflexivity.
Qed.

Lemma linear_2d (n k m : nat) :
  ForwardShape.linear [:: n; k] [:: m; k] [:: m] = Ok [:: n; m].
Proof.
rewrite /ForwardShape.linear /= eqxx /= /TorchShape.broadcast /=.
by rewrite /Torch.pad_shape /= eqxx orbT /= eqxx.
Qed.

Local Arguments ForwardShape.linear : simpl never.

(** [rgnet(x)] on a batch of [n] rows of 4 numbers has shape (n, 1). *)
Lemma rgnet_forward_shape (h : seq tensor) (g : generator) (n0 : nat)
    (x : tensor) (n : nat) :
  shape x = [:: n; 4]%N ->
  exists2 t, forward (h ++ rgnet_tensors g) (rgnet_module n0 (size h)) x = Ok t
           & shape t = [:: n; 1]%N.
Proof.
move=> sx.
have := forward_shape (h ++ rgnet_tensors g) (rgnet_module n0 (size h)) x.
set f := forward _ _ x.
have H k : nth [::] [seq shape t | t <- h ++ rgnet_tensors g] (k + size h)
           = nth [::] [seq shape t | t <- rgnet_tensors g] k.
  by rewrite map_cat nth_cat size_map ltnNge leq_addl /= addnK.
rewrite sx /=.
rewrite (H 0) (H 1) (H 2) (H 3) (H 4) (H 5) (H 6) (H 7) (H 8) (H 9).
rewrite (H 10) (H 11) (H 12) (H 13) (H 14) (H 15) (H 16) (H 17) /=.
do 9!rewrite linear_2d /=.
by case: f => [t|e] //= [st]; exists t.
Qed.

Lemma module_ids_rgnet (n s : nat) :
  module_ids (rgnet_module n s)
  = [seq (k + n)%N
       | k <- [:: 22; 0; 5; 1; 2; 3; 4; 10; 6; 7; 8; 9; 15; 11; 12; 13; 14;
                  20; 16; 17; 18; 19; 21]%N].
Proof. by []. Qed.



End BlockFacts.

(** ** [MyLinear] and the library's linear layer *)

Section Transpose.

Import Tensor Torch.

Lemma nth_flatten_regular (ss : seq (seq scalar)) k i j :
  all (fun s => size s == k) ss -> (i < k)%N ->
  nth NaN (flatten ss) (j * k + i) = nth NaN (nth [::] ss j) i.
Proof.
move=> + ik; elim: ss j => [|s ss IH] [|j] //=.
- by rewrite !nth_nil.
- by move=> /andP [/eqP sk _]; rewrite mul0n add0n nth_cat sk ik.
- move=> /andP [/eqP sk al]; rewrite nth_cat sk mulSn -addnA.
  by rewrite ltnNge leq_addr /= addKn; apply: IH.
Qed.

Lemma nth_mkrow (f : nat -> scalar) n i :
  (i < n)%N -> nth NaN [seq f a | a <- iota 0 n] i = f i.
Proof. by move=> lt; rewrite (nth_map 0%N) ?size_iota // nth_iota. Qed.

Lemma row_take (d : seq scalar) m :
  (m <= size d)%N -> [seq nth NaN d j | j <- iota 0 m] = take m d.
Proof.
move=> le; rewrite -[RHS](mkseq_nth NaN) size_take_min (minn_idPl le).
by apply/eq_in_map => j; rewrite mem_iota /= add0n => jm; rewrite nth_take.
Qed.

Lemma flatten_rows (d : seq scalar) k m :
  size d = (k * m)%N ->
  flatten [seq [seq nth NaN d (i * m + j) | j <- iota 0 m] | i <- iota 0 k] = d.
Proof.
elim: k d => [|k IH] d sd /=.
  by case: d sd.
have le : (m <= size d)%N by rewrite sd mulSn leq_addr.
rewrite -[in RHS](cat_take_drop m d); congr (_ ++ _).
  by rewrite -row_take //; apply: eq_map => j; rewrite mul0n.
have sdr : size (drop m d) = (k * m)%N by rewrite size_drop sd mulSn addKn.
rewrite -[RHS](IH _ sdr).
rewrite (iotaDl 1 0 k) -map_comp; congr flatten; apply: eq_map => i /=.
by apply: eq_map => j; rewrite nth_drop add1n mulSn addnA.
Qed.

(** Transposing twice gives the matrix back. *)
Lemma transpose_involutive (w wt : tensor) :
  wf w -> transpose w = Ok wt -> transpose wt = Ok w.
Proof.
case: w => [[|k [|m [|? ?]]] d] //=; rewrite /wf /transpose /= muln1.
move=> /eqP sd [<-] /=; congr (Ok (Make _ _)).
rewrite -[RHS](flatten_rows sd) /cols; congr flatten.
apply/eq_in_map => i; rewrite mem_iota /= add0n => ik.
apply/eq_in_map => j; rewrite mem_iota /= add0n => jm.
rewrite nth_flatten_regular //; last first.
  by rewrite (nth_map 0%N) ?size_iota // nth_iota // add0n nth_mkrow.
by apply/allP => s /mapP [a _ ->]; rewrite size_map size_iota.
Qed.

(** X14.  [MyLinear] keeps its weight as an (in_units, units) matrix and
    computes [x @ weight + bias]; the library's linear layer keeps an
    (out_features, in_features) matrix and computes [x @ weight.t() +
    bias].  So a [MyLinear] layer computes, on every input, what the
    library's layer computes with the transposed weight and the same
    bias, and raises where it raises. *)
Theorem MyLinear_is_linear_transposed (self : MyLinear.t tensor) (x wt : tensor) :
  wf (p_data (MyLinear.weight self)) ->
  transpose (p_data (MyLinear.weight self)) = Ok wt ->
  MyLinear.forward self x = linear x wt (p_data (MyLinear.bias self)).
Proof.
move=> wfw Et; rewrite /linear (transpose_involutive wfw Et) /=.
by rewrite /MyLinear.forward.
Qed.

(** The theorem on [dense = MyLinear(5, 3)]: its weight, transposed, has
    shape (3, 5). *)
Lemma MyLinear_is_linear_transposed_witness :
  exists2 wt : tensor,
    shape wt = [:: 3; 5]%N
    & forall x, MyLinear.forward (MyLinear.__init__ 5 3 samples).1 x
                = linear x wt (p_data (MyLinear.bias (MyLinear.__init__ 5 3 samples).1)).
Proof.
pose self := (MyLinear.__init__ 5 3 samples).1.
pose wt := Make [:: 3; 5]%N (flatten (cols 5 3 (data (p_data (MyLinear.weight self))))).
exists wt; first by [].
move=> x; apply: (@MyLinear_is_linear_transposed self x wt); last by [].
exact: wf_randn.
Defined.

End Transpose.

(** ** The ndarray notebook: broadcasting *)

Section Broadcasting.

Import Tensor Torch.

Lemma reshape_ones (d : seq scalar) :
  reshape (nseq (size d) 1%N) d = [seq [:: u] | u <- d].
Proof. by elim: d => [|u d IH] //=; rewrite take0 drop0 IH. Qed.

Lemma expand_column (d : seq scalar) m :
  expand [:: size d; 1]%N [:: size d; m]%N d = flatten [seq nseq m u | u <- d].
Proof.
rewrite /= eqxx /chunks /= muln1 reshape_ones -map_comp; congr flatten.
apply: eq_map => u /=; case: eqP => [<-|_] //=.
by elim: (m) => //= k ->.
Qed.

Lemma expand_rows (s : seq nat) (d : seq scalar) n :
  size d = numel s -> expand (1%N :: s) (n :: s) d = flatten (nseq n d).
Proof.
move=> sd; rewrite /=; case: eqP => [<-|_]; last by rewrite expand_id.
by rewrite /chunks /= -sd take_size /= !cats0 expand_id.
Qed.

Lemma expand_row (d : seq scalar) n :
  expand [:: 1; size d]%N [:: n; size d]%N d = flatten (nseq n d).
Proof. by apply: expand_rows; rewrite /= muln1. Qed.

Lemma zip_outer (f : scalar -> scalar -> scalar) (da db : seq scalar) :
  [seq f p.1 p.2
     | p <- zip (flatten [seq nseq (size db) u | u <- da]) (flatten (nseq (size da) db))]
  = [seq f u v | u <- da, v <- db].
Proof.
elim: da => [|u da IH] //=.
rewrite zip_cat ?size_nseq // map_cat IH; congr (_ ++ _).
by elim: (db) => //= v db' ->.
Qed.

Local Arguments expand : simpl never.

(** X15.  Broadcasting as in the cell [a + b] with [a] of shape (3, 1)
    and [b] of shape (1, 2): a column of [n] elements plus a row of [m]
    elements is the [n]-by-[m] matrix whose element at (i, j) is
    [a[i] + b[j]], for all [n] and [m]. *)
Theorem add_column_row (a b : tensor) (n m : nat) :
  shape a = [:: n; 1]%N -> shape b = [:: 1; m]%N -> wf a -> wf b ->
  add a b = Ok (Make [:: n; m]%N [seq sadd u v | u <- data a, v <- data b]).
Proof.
move=> sa sb; rewrite /wf sa sb /= !muln1 mul1n => /eqP za /eqP zb.
rewrite /add /broadcast2 sa sb /= /pad_shape /= eqxx orbT /=.
have -> : (if (1%N == m) || (m == 1%N) then Some [:: 1%N]
           else if 1%N == 1%N then Some [:: m] else None) = Some [:: m].
  by rewrite eq_sym orbb; case: eqP => [->|].
rewrite [omap _ _]/= -za -zb expand_column expand_row zip_outer.
reflexivity.
Qed.

(** The cell of the notebook: [a] is the column 0, 1, 2 and [b] the row
    0, 1; [a + b] has the rows (0, 1), (1, 2) and (2, 3). *)
Lemma add_column_row_witness :
  ndarray_broadcast.cell_a_plus_b
  = Ok (of_rows 3 2 [seq Fin i%:R | i <- [:: 0; 1; 1; 2; 2; 3]%N]).
Proof.
rewrite /ndarray_broadcast.cell_a_plus_b.
rewrite (@add_column_row ndarray_broadcast.a ndarray_broadcast.b 3 2
           (erefl _) (erefl _) isT isT).
vm_compute; reflexivity.
Defined.

End Broadcasting.
